(** * kafka-kit: constraint-based broker selection, rebalance planning and
    the autothrottle helpers, embedded from the Go sources.

    Go values are modelled as follows.
    - [float64] is Rocq's primitive binary64 [float]; comparisons are the
      IEEE ones ([PrimFloat.ltb], false on NaN).
    - [int] is [Z]; increments wrap at 64 bits ([int_wrap]).
    - [map[K]V] is a [gmap K V]; reading a missing key of a [map[K]bool]
      gives [false] ([map_get]).
    - [*Broker] is an address into a store of brokers ([gmap Z Broker]); an
      address without an entry is a nil pointer and dereferencing it is a
      run-time panic ([Panic]).

    The first part embeds the sources: module [Kafkazk] the constraints of
    package kafkazk, module [Commands] the rebalance steps of topicmappr
    (cmd/topicmappr/commands/rebalance_steps.go), module [Autothrottle] the
    autothrottle command. The second part states and proves their
    properties. *)

From Stdlib Require Import ZArith List String Ascii Floats Bool Lia.
From Stdlib Require Import DecimalString.
From stdpp Require Import base option list gmap sets strings.

Local Open Scope Z_scope.
Local Open Scope string_scope.

(** ** Go primitives *)

(** A function either returns or panics (nil dereference, index out of
    range). *)
Inductive result (A : Type) : Type :=
| Ok (a : A)
| Panic.
Arguments Ok {A} a.
Arguments Panic {A}.

Definition rbind {A B : Type} (r : result A) (k : A -> result B) : result B :=
  match r with
  | Ok a => k a
  | Panic => Panic
  end.

#[global] Instance result_bind : MBind result := fun A B k r => rbind r k.
#[global] Instance result_ret : MRet result := fun A a => Ok a.

(** Dereferencing a pointer read from a store. *)
Definition deref {A : Type} (o : option A) : result A :=
  match o with
  | Some a => Ok a
  | None => Panic
  end.

(** 64-bit two's complement wrap-around of Go's [int]. *)
Definition int_wrap (z : Z) : Z := (z + 2 ^ 63) mod 2 ^ 64 - 2 ^ 63.

(** Reading [m[k]] from a [map[K]bool]: the zero value when absent. *)
Definition map_get `{Countable K} (m : gmap K bool) (k : K) : bool :=
  default false (m !! k).

(** [fmt.Sprintf("%d", n)]. *)
Definition fmt_d (n : Z) : string := NilZero.string_of_int (Z.to_int n).

(** ** Package kafkazk: brokers and constraints *)
Module Kafkazk.

Record Broker : Type := mkBroker {
  ID : Z;
  Locality : string;
  Used : Z;
  StorageFree : float;
  Replace : bool;
  New : bool
}.

Definition set_StorageFree (b : Broker) (s : float) : Broker :=
  mkBroker (ID b) (Locality b) (Used b) s (Replace b) (New b).

Definition set_Used (b : Broker) (u : Z) : Broker :=
  mkBroker (ID b) (Locality b) u (StorageFree b) (Replace b) (New b).

(** [type ErrNoBrokers struct { Message string }]. *)
Record ErrNoBrokers : Type := mkErrNoBrokers { Message : string }.

(** Go's [error] values that the package produces. *)
Inductive error : Type :=
| ErrNoBrokersE (e : ErrNoBrokers)
| errorString (s : string).

Definition Error (e : error) : string :=
  match e with
  | ErrNoBrokersE e => Message e
  | errorString s => s
  end.

Definition errInvalidSelectionMethod : error :=
  errorString "Invalid selection method".

Record constraints : Type := mkConstraints {
  requestSize : float;
  locality : gmap string bool;
  id : gmap Z bool
}.

Definition newConstraints : constraints :=
  mkConstraints 0%float ∅ ∅.

(** [c.locality[b.Locality] = true], guarded by [b.Locality != ""]. *)
Definition add_locality (l : gmap string bool) (b : Broker) : gmap string bool :=
  if String.eqb (Locality b) "" then l else <[Locality b := true]> l.

(** [constraints.add]: returns the updated constraints and the broker as the
    call leaves it ([b.StorageFree -= c.requestSize]). *)
Definition add (c : constraints) (b : Broker) : constraints * Broker :=
  (mkConstraints (requestSize c) (add_locality (locality c) b)
                 (<[ID b := true]> (id c)),
   set_StorageFree b (PrimFloat.sub (StorageFree b) (requestSize c))).

Definition msg_storage (b : Broker) : string :=
  "Locality " ++ Locality b ++ " exhausted of storage capacity".
Definition msg_locality (b : Broker) : string :=
  "Locality " ++ Locality b ++ " exhausted of available brokers".
Definition msg_id (b : Broker) : string :=
  "ID " ++ fmt_d (ID b) ++ " already in replica set".

(** The three cases of the [switch] of [passes], as the source writes
    them: [b.StorageFree-c.requestSize < 0], [c.locality[b.Locality]] and
    [c.id[b.ID]]. *)
Definition storage_exhausted (c : constraints) (b : Broker) : bool :=
  PrimFloat.ltb (PrimFloat.sub (StorageFree b) (requestSize c)) 0%float.
Definition locality_forbidden (c : constraints) (b : Broker) : bool :=
  map_get (locality c) (Locality b).
Definition id_forbidden (c : constraints) (b : Broker) : bool :=
  map_get (id c) (ID b).

(** [constraints.passes]: [None] is the nil error. *)
Definition passes (c : constraints) (b : Broker) : option ErrNoBrokers :=
  if storage_exhausted c b then Some (mkErrNoBrokers (msg_storage b))
  else if locality_forbidden c b then Some (mkErrNoBrokers (msg_locality b))
  else if id_forbidden c b then Some (mkErrNoBrokers (msg_id b))
  else None.

(** One iteration of the loop of [mergeConstraints]. *)
Definition merge_step (c : constraints) (b : Broker) : constraints :=
  if Replace b then c
  else mkConstraints (requestSize c) (add_locality (locality c) b)
                     (<[ID b := true]> (id c)).

(** [mergeConstraints] over the brokers the list points to. *)
Definition mergeConstraints (bl : list Broker) : constraints :=
  fold_left merge_step bl newConstraints.

(** *** Broker lists

    A [brokerList] is a slice of [*Broker]: a list of addresses into the
    store [h]. *)

(** Dereference every pointer of a list; a nil pointer panics. *)
Fixpoint resolve (h : gmap Z Broker) (l : list Z) : result (list (Z * Broker)) :=
  match l with
  | [] => Ok []
  | a :: l' =>
      b ← deref (h !! a);
      bs ← resolve h l';
      Ok ((a, b) :: bs)
  end.

(** [sort.Sort] with a [Less] function, as an insertion sort. The Go
    algorithm is unspecified; under a strict total order (distinct IDs, no
    NaN) every sort yields this list. *)
Fixpoint insert_by {A : Type} (less : A -> A -> bool) (x : A) (l : list A) : list A :=
  match l with
  | [] => [x]
  | y :: l' => if less y x then y :: insert_by less x l' else x :: l
  end.

Definition sort_by {A : Type} (less : A -> A -> bool) (l : list A) : list A :=
  fold_right (insert_by less) [] l.

(** Modelled from the spec: the [brokersByStorage] ordering, which this
    snapshot of the sources lacks ("sort by storage_free descending; ties
    broken by ascending ID"). *)
Definition brokersByStorage_Less (x y : Z * Broker) : bool :=
  if PrimFloat.ltb (StorageFree y.2) (StorageFree x.2) then true
  else if PrimFloat.ltb (StorageFree x.2) (StorageFree y.2) then false
  else Z.ltb (ID x.2) (ID y.2).

(** [SortPseudoShuffle] is not part of this snapshot: any reordering of the
    list that depends on the seed and on the brokers pointed to. *)
Class PseudoShuffle : Type := {
  SortPseudoShuffle : Z -> list (Z * Broker) -> list (Z * Broker);
  SortPseudoShuffle_perm : forall p l, SortPseudoShuffle p l ≡ₚ l
}.

(** The candidate loop of [bestCandidate]: [err] is the error of the last
    candidate examined so far. *)
Fixpoint candidates_loop (h : gmap Z Broker) (c : constraints) (l : list Z)
    (err : option error)
  : result (gmap Z Broker * constraints * (option Z * option error)) :=
  match l with
  | [] => Ok (h, c, (None, err))
  | candidate :: rest =>
      b ← deref (h !! candidate);
      match passes c b with
      | None =>
          let '(c', b') := add c b in
          Ok (<[candidate := set_Used b' (int_wrap (Used b' + 1))]> h, c',
              (Some candidate, None))
      | Some e => candidates_loop h c rest (Some (ErrNoBrokersE e))
      end
  end.

(** The [switch] of [bestCandidate] on the selection method: the sort to
    run, or [None] for the default branch. *)
Definition sort_method `{PseudoShuffle} (by_ : string) (p : Z)
  : option (list (Z * Broker) -> list (Z * Broker)) :=
  if String.eqb by_ "count" then Some (SortPseudoShuffle p)
  else if String.eqb by_ "storage" then Some (sort_by brokersByStorage_Less)
  else None.

(** [brokerList.bestCandidate]. Returns the store, the list as the sort
    left it, the constraints, and the pair (candidate, error). *)
Definition bestCandidate `{PseudoShuffle} (h : gmap Z Broker) (b : list Z)
    (c : constraints) (by_ : string) (p : Z)
  : result (gmap Z Broker * list Z * constraints * (option Z * option error)) :=
  match sort_method by_ p with
  | None => Ok (h, b, c, (None, Some errInvalidSelectionMethod))
  | Some sort =>
      bl ← resolve h b;
      let sorted := (sort bl).*1 in
      r ← candidates_loop h c sorted None;
      Ok (r.1.1, sorted, r.1.2, r.2)
  end.

(** Filling successive slots of one replica set from the brokers [bs], in
    order: does every one of them pass when its turn comes? *)
Fixpoint pass_all (c : constraints) (bs : list Broker) : bool :=
  match bs with
  | [] => true
  | b :: bs' =>
      match passes c b with
      | None => pass_all (add c b).1 bs'
      | Some _ => false
      end
  end.

End Kafkazk.

(** ** Package commands: the rebalance steps of topicmappr *)
Module Commands.
Import Kafkazk.

(** [kafkazk.Partition]; the field [Partition] is [PartitionN] here, the
    record itself taking the name. *)
Record Partition : Type := mkPartition {
  Topic : string;
  PartitionN : Z;
  Replicas : list Z
}.

Record PartitionMap : Type := mkPartitionMap {
  Version : Z;
  Partitions : list Partition
}.

(** [kafkazk.BrokerStatus], the counters that [BrokerMap.Update] returns. *)
Module BrokerStatus.
Record t : Type := mk { New : Z; Missing : Z; OldMissing : Z; Replace : Z }.
End BrokerStatus.

(** *** Standard output and process exit

    A command writes to standard output and either returns or ends the
    process with [os.Exit]. *)
Inductive outcome (A : Type) : Type :=
| Returns (a : A)
| Exits (code : Z).
Arguments Returns {A} a.
Arguments Exits {A} code.

Inductive io (A : Type) : Type :=
| IO (stdout : list string) (r : outcome A).
Arguments IO {A} stdout r.

Definition io_stdout {A : Type} (m : io A) : list string :=
  match m with IO o _ => o end.
Definition io_outcome {A : Type} (m : io A) : outcome A :=
  match m with IO _ r => r end.

Definition io_bind {A B : Type} (m : io A) (k : A -> io B) : io B :=
  match m with
  | IO o (Returns a) => match k a with IO o' r => IO (o ++ o')%list r end
  | IO o (Exits code) => IO o (Exits code)
  end.

#[global] Instance io_mbind : MBind io := fun A B k m => io_bind m k.
#[global] Instance io_mret : MRet io := fun A a => IO [] (Returns a).

Definition Print (s : string) : io unit := IO [s] (Returns tt).
Definition os_Exit {A : Type} (code : Z) : io A := IO [] (Exits code).
Definition when (b : bool) (m : io unit) : io unit :=
  if b then m else IO [] (Returns tt).

Definition nl : string := String (ascii_of_nat 10) "".

(** *** What this snapshot of the repository does not contain

    Types, methods and constants of package kafkazk and of the command line
    layer that the rebalance steps call. They are parameters of the
    development. A [BrokerMap] ([map[int]*Broker]) is the store of brokers
    itself: the pointer held under a key is that key. *)
Class Env : Type := {
  Mappings : Type;
  PartitionMetaMap : Type;
  BrokerMetaMap : Type;
  (** [mappings.LargestPartitions(id, k, pmm)], its error dropped. *)
  LargestPartitions : Mappings -> Z -> Z -> PartitionMetaMap -> list Partition;
  (** [mappings.Remove(id, p)]. *)
  Mappings_Remove : Mappings -> Z -> Partition -> Mappings;
  (** [pmm.Size(p)], its error dropped. *)
  PartitionMetaMap_Size : PartitionMetaMap -> Partition -> float;
  BrokerMap_Mean : gmap Z Broker -> float;
  BrokerMap_HMean : gmap Z Broker -> float;
  (** [brokers.List()]: the pointers held by the map. *)
  BrokerMap_List : gmap Z Broker -> list Z;
  (** [brokers.Filter(f)], as the brokers that matched. *)
  BrokerMap_Filter : gmap Z Broker -> (Broker -> bool) -> list Broker;
  BrokerMap_BelowMean : gmap Z Broker -> float -> (unit -> float) -> list Z;
  (** [brokers.Update(ids, bm)]: the map as updated, the status and the
      messages read from the channel. *)
  BrokerMap_Update :
    gmap Z Broker -> list Z -> BrokerMetaMap ->
    gmap Z Broker * BrokerStatus.t * list string;
  BrokerStatus_Changes : BrokerStatus.t -> bool;
  SimpleLeaderOptimization : PartitionMap -> PartitionMap;
  ensureBrokerMetrics : gmap Z Broker -> BrokerMetaMap -> io unit;
  (** The package constants [indent] and [div]. *)
  indent : string;
  div : float;
  (** [fmt.Sprintf("%.2f", x)]. *)
  fmt_2f : float -> string
}.

(** *** relocationPlan *)

Record relocation : Type := mkRelocation {
  partition : Partition;
  destination : Z
}.

(** [relocationPlan.add]. *)
Definition relocationPlan_add (r : gmap string (gmap Z (list (Z * Z))))
    (p : Partition) (ids : Z * Z) : gmap string (gmap Z (list (Z * Z))) :=
  let r1 := match r !! Topic p with
            | Some _ => r
            | None => <[Topic p := ∅]> r
            end in
  let inner := default ∅ (r1 !! Topic p) in
  <[Topic p := <[PartitionN p := (default [] (inner !! PartitionN p) ++ [ids])%list]> inner]> r1.

(** [relocationPlan.isPlanned]: [Some pairs] is [(pairs, true)]. *)
Definition isPlanned (r : gmap string (gmap Z (list (Z * Z)))) (p : Partition)
  : option (list (Z * Z)) :=
  match r !! Topic p with
  | None => None
  | Some inner => inner !! PartitionN p
  end.

(** *** validateBrokersForRebalance *)

(** [sort.Ints]. *)
Definition sort_Ints (l : list Z) : list Z := sort_by Z.ltb l.

Definition validateBrokersForRebalance `{Env} (Config_brokers : list Z)
    (st stg tol : float) (brokers : gmap Z Broker) (bm : BrokerMetaMap)
  : io (gmap Z Broker * list Z) :=
  Print (nl ++ "Validating broker list:" ++ nl);;
  let '(brokers, c, msgs) := BrokerMap_Update brokers Config_brokers bm in
  IO ((fun m => indent ++ m ++ nl) <$> msgs) (Returns tt);;
  when (BrokerStatus_Changes c) (Print (indent ++ "-" ++ nl));;
  ensureBrokerMetrics brokers bm;;
  (if Z.ltb 0 (BrokerStatus.Missing c) || Z.ltb 0 (BrokerStatus.OldMissing c)
      || Z.ltb 0 (BrokerStatus.Replace c)
   then
     Print (indent ++ "[ERROR] rebalance only allows broker additions" ++ nl);;
     os_Exit 1
   else if Z.ltb 0 (BrokerStatus.New c) then
     Print (indent ++ fmt_d (BrokerStatus.New c) ++ " additional brokers added" ++ nl);;
     Print (indent ++ "-" ++ nl);;
     Print (indent ++ "OK" ++ nl)
   else Print (indent ++ "OK" ++ nl));;
  let '(selectorMethod, offloadTargets) :=
    if PrimFloat.ltb 0%float stg then
      ("(< " ++ fmt_2f stg ++ "GB storage free)",
       sort_Ints (ID <$> BrokerMap_Filter brokers
         (fun b => negb (New b) && PrimFloat.ltb (StorageFree b) (PrimFloat.mul stg div))))
    else
      ("(>= " ++ fmt_2f (PrimFloat.mul st 100%float) ++ "% threshold below hmean)",
       if PrimFloat.eqb st 0%float then
         sort_Ints (ID <$> BrokerMap_Filter brokers (fun b => negb (New b)))
       else BrokerMap_BelowMean brokers st (fun _ => BrokerMap_HMean brokers)) in
  Print (nl ++ "Rebalance parameters:" ++ nl);;
  let mean := BrokerMap_Mean brokers in
  let hMean := BrokerMap_HMean brokers in
  Print (indent ++ "Free storage mean, harmonic mean: "
         ++ fmt_2f (PrimFloat.div mean div) ++ "GB, "
         ++ fmt_2f (PrimFloat.div hMean div) ++ "GB" ++ nl);;
  Print (indent ++ "Broker free storage limits (with a "
         ++ fmt_2f (PrimFloat.mul tol 100%float) ++ "% tolerance from mean):" ++ nl);;
  Print (indent ++ indent ++ "Sources limited to <= "
         ++ fmt_2f (PrimFloat.div (PrimFloat.mul mean (PrimFloat.add 1%float tol)) div)
         ++ "GB" ++ nl);;
  Print (indent ++ indent ++ "Destinations limited to >= "
         ++ fmt_2f (PrimFloat.div (PrimFloat.mul mean (PrimFloat.sub 1%float tol)) div)
         ++ "GB" ++ nl);;
  Print (nl ++ "Brokers targeted for partition offloading " ++ selectorMethod
         ++ ":" ++ nl);;
  (if bool_decide (offloadTargets = []) then
     Print (indent ++ "[none]" ++ nl);;
     os_Exit 0
   else
     IO ((fun id => indent ++ fmt_d id ++ nl) <$> offloadTargets) (Returns tt));;
  mret (brokers, offloadTargets).

(** *** planRelocationsForBroker *)

(** A [BrokerMap] holds every broker under its own ID. *)
Definition BrokerMap_wf (bm : gmap Z Broker) : Prop :=
  map_Forall (fun k b => ID b = k) bm.

(** The command line flags the function reads. *)
Record Flags : Type := mkFlags {
  verbose : bool;
  tolerance : float;
  localityScoped : bool
}.

(** [planRelocationsForBrokerParams]. The maps are shared with the caller:
    the function returns the record as it leaves them. *)
Record planRelocationsForBrokerParams `{Env} : Type := mkParams {
  sourceID : Z;
  relos : gmap Z (list relocation);
  mappings : Mappings;
  brokers : gmap Z Broker;
  partitionMeta : PartitionMetaMap;
  plan : gmap string (gmap Z (list (Z * Z)));
  pass : Z;
  topPartitionsLimit : Z;
  offloadTargetsMap : gset Z
}.

Definition set_brokers `{Env} (s : planRelocationsForBrokerParams)
    (b : gmap Z Broker) : planRelocationsForBrokerParams :=
  mkParams _ (sourceID s) (relos s) (mappings s) b (partitionMeta s) (plan s)
           (pass s) (topPartitionsLimit s) (offloadTargetsMap s).

(** [brokerList.SortByStorage()], keeping each pointer with the broker it
    points to. *)
Definition SortByStorage (h : gmap Z Broker) (l : list Z) : result (list (Z * Broker)) :=
  bl ← resolve h l;
  Ok (sort_by brokersByStorage_Less bl).

(** The test a broker must pass to be the destination when the move is
    scoped to the source's locality. *)
Definition scoped_candidate (targetLocality : string) (source : Z)
    (offload : gset Z) (b : Z * Broker) : bool :=
  String.eqb (Locality b.2) targetLocality
  && negb (Z.eqb (ID b.2) source)
  && negb (bool_decide (ID b.2 ∈ offload)).

(** [c.Add(&kafkazk.Broker{ID: id})], for every offload target. *)
Definition add_target (c : constraints) (id : Z) : constraints :=
  (add c (mkBroker id "" 0 0%float false false)).1.

Definition add_offload_targets (c : constraints) (offload : gset Z) : constraints :=
  fold_left add_target (elements offload) c.

(** The choice of a destination for partition [p]: the store as the choice
    leaves it, and the destination pointer, if any. *)
Definition select_destination `{PseudoShuffle} (scoped : bool) (source : Z)
    (targetLocality : string) (offload : gset Z) (h : gmap Z Broker)
    (brokerList : list Z) (p : Partition) : result (gmap Z Broker * option Z) :=
  sorted ← SortByStorage h brokerList;
  if scoped then
    Ok (h, fst <$> List.find (scoped_candidate targetLocality source offload) sorted)
  else
    replicaSet ← resolve h (List.filter (fun id => negb (Z.eqb id source)) (Replicas p));
    let c := add_offload_targets (mergeConstraints replicaSet.*2) offload in
    r ← bestCandidate h sorted.*1 c "storage" 0;
    Ok (r.1.1.1, r.2.1).

(** How one iteration of the relocation loop ends. *)
Inductive loop_ctl `{Env} : Type :=
| Continue (s : planRelocationsForBrokerParams)
| Break (s : planRelocationsForBrokerParams) (reloCount : Z)
| Return (s : planRelocationsForBrokerParams).

(** The body of the loop over the top partitions. Output under [verbose]
    is left out. *)
Definition relocation_step `{Env} `{PseudoShuffle} (fl : Flags)
    (targetLocality : string) (meanStorageFree : float)
    (s : planRelocationsForBrokerParams) (reloCount : Z) (p : Partition)
  : result loop_ctl :=
  let pSize := PartitionMetaMap_Size (partitionMeta s) p in
  sel ← select_destination (localityScoped fl) (sourceID s) targetLocality
          (offloadTargetsMap s) (brokers s) (BrokerMap_List (brokers s)) p;
  let s1 := set_brokers s sel.1 in
  match sel.2 with
  | None => Ok (Return s1)
  | Some dest =>
      src ← deref (brokers s1 !! sourceID s);
      d ← deref (brokers s1 !! dest);
      let sourceFree := PrimFloat.add (StorageFree src) pSize in
      let destFree := PrimFloat.sub (StorageFree d) pSize in
      let sLim := PrimFloat.mul meanStorageFree (PrimFloat.add 1%float (tolerance fl)) in
      if PrimFloat.ltb sLim sourceFree then Ok (Continue s1)
      else
        let dLim := PrimFloat.mul meanStorageFree (PrimFloat.sub 1%float (tolerance fl)) in
        if PrimFloat.ltb destFree dLim then Ok (Continue s1)
        else
          let relos' :=
            <[sourceID s := (default [] (relos s !! sourceID s)
                             ++ [mkRelocation p (ID d)])%list]> (relos s) in
          let plan' := relocationPlan_add (plan s) p (sourceID s, ID d) in
          let brokers2 := <[sourceID s := set_StorageFree src sourceFree]> (brokers s1) in
          d' ← deref (brokers2 !! ID d);
          let brokers3 := <[ID d := set_StorageFree d' destFree]> brokers2 in
          Ok (Break (mkParams _ (sourceID s) relos'
                       (Mappings_Remove (mappings s) (sourceID s) p) brokers3
                       (partitionMeta s) plan' (pass s) (topPartitionsLimit s)
                       (offloadTargetsMap s))
                    (int_wrap (reloCount + 1)))
  end.

Fixpoint relocation_loop `{Env} `{PseudoShuffle} (fl : Flags)
    (targetLocality : string) (meanStorageFree : float)
    (s : planRelocationsForBrokerParams) (reloCount : Z)
    (topPartn : list Partition)
  : result (Z * planRelocationsForBrokerParams) :=
  match topPartn with
  | [] => Ok (reloCount, s)
  | p :: rest =>
      ctl ← relocation_step fl targetLocality meanStorageFree s reloCount p;
      match ctl with
      | Continue s' => relocation_loop fl targetLocality meanStorageFree s' reloCount rest
      | Break s' n => Ok (n, s')
      | Return s' => Ok (reloCount, s')
      end
  end.

Definition planRelocationsForBroker `{Env} `{PseudoShuffle} (fl : Flags)
    (params : planRelocationsForBrokerParams)
  : result (Z * planRelocationsForBrokerParams) :=
  let meanStorageFree := BrokerMap_Mean (brokers params) in
  let topPartn := LargestPartitions (mappings params) (sourceID params)
                    (topPartitionsLimit params) (partitionMeta params) in
  src ← deref (brokers params !! sourceID params);
  relocation_loop fl (Locality src) meanStorageFree params 0 topPartn.

(** *** applyRelocationPlan *)

(** The inner loop over the pairs for the replica [r] read at index [i],
    from the value [cur] that [partn.Replicas[i]] holds: the value the
    loop leaves there. *)
Definition replace_from (pairs : list (Z * Z)) (r cur : Z) : Z :=
  fold_left (fun cur relo => if Z.eqb r relo.1 then relo.2 else cur) pairs cur.

Definition replace_replica (pairs : list (Z * Z)) (r : Z) : Z :=
  replace_from pairs r r.

Definition apply_to_partition (plan : gmap string (gmap Z (list (Z * Z))))
    (partn : Partition) : Partition :=
  match isPlanned plan partn with
  | Some pairs =>
      mkPartition (Topic partn) (PartitionN partn)
                  (replace_replica pairs <$> Replicas partn)
  | None => partn
  end.


(** The replica set after the pairs are applied one after the other, each
    to the replica set the previous pair left (the reading of "a chain of
    pairs applied in order"). *)
Definition apply_pair (rs : list Z) (relo : Z * Z) : list Z :=
  (fun r => if Z.eqb r relo.1 then relo.2 else r) <$> rs.

Definition apply_chain (pairs : list (Z * Z)) (rs : list Z) : list Z :=
  fold_left apply_pair pairs rs.

(** Every pair's source is in the replica set when the pair's turn comes. *)
Fixpoint sources_present (pairs : list (Z * Z)) (rs : list Z) : Prop :=
  match pairs with
  | [] => True
  | relo :: rest => relo.1 ∈ rs /\ sources_present rest (apply_pair rs relo)
  end.

(** No pair's destination is the source of a later pair. *)
Fixpoint no_chain (pairs : list (Z * Z)) : Prop :=
  match pairs with
  | [] => True
  | relo :: rest => Forall (fun later => later.1 <> relo.2) rest /\ no_chain rest
  end.

End Commands.

(** ** Go's [strings.Split] and [strconv.Atoi] *)

(** [strings.Split(s, sep)] for a one-byte separator: never empty, and
    [[""]] on the empty string. *)
Fixpoint Split (sep : ascii) (s : string) : list string :=
  match s with
  | EmptyString => [EmptyString]
  | String c s' =>
      if Ascii.eqb c sep then EmptyString :: Split sep s'
      else match Split sep s' with
           | [] => [String c EmptyString]
           | x :: xs => String c x :: xs
           end
  end.

(** Whether the byte [sep] occurs in [s]. *)
Fixpoint contains (sep : ascii) (s : string) : bool :=
  match s with
  | EmptyString => false
  | String c s' => Ascii.eqb c sep || contains sep s'
  end.

Definition is_digit (c : ascii) : bool :=
  (48 <=? nat_of_ascii c)%nat && (nat_of_ascii c <=? 57)%nat.

Fixpoint parse_digits (s : string) (acc : Z) : option Z :=
  match s with
  | EmptyString => Some acc
  | String c s' =>
      if is_digit c
      then parse_digits s' (acc * 10 + (Z.of_nat (nat_of_ascii c) - 48))
      else None
  end.

(** [strconv.Atoi]: an optional sign, at least one decimal digit, and a
    value that fits an [int]; [None] stands for the error. *)
Definition Atoi (s : string) : option Z :=
  let '(neg, digits) :=
    match s with
    | String "-" rest => (true, rest)
    | String "+" rest => (false, rest)
    | _ => (false, s)
    end in
  match digits with
  | EmptyString => None
  | _ =>
      n ← parse_digits digits 0;
      let v := if neg then - n else n in
      if Z.leb (- 2 ^ 63) v && Z.ltb v (2 ^ 63) then Some v else None
  end.

(** ** Command autothrottle *)
Module Autothrottle.

(** [kafkametrics.Broker], with the fields the command reads. *)
Record Broker : Type := mkBroker {
  ID : Z;
  InstanceType : string;
  NetTX : float
}.

(** [kafkazk.TopicConfig]. *)
Record TopicConfig : Type := mkTopicConfig {
  Version : Z;
  Config : gmap string string
}.

Definition error : Type := string.

(** [BWLimits]. *)
Definition BWLimits : gmap string float :=
  <["d2.4xlarge" := 240%float]> (<["d2.2xlarge" := 120%float]>
    (<["d2.xlarge" := 60%float]> ∅)).

(** [Limits.headroom]: dereferences [b], so a nil broker panics. *)
Definition headroom (l : gmap string float) (b : option Broker)
  : result (float * option error) :=
  b ← deref b;
  match l !! InstanceType b with
  | Some k => Ok (PrimFloat.sub k (NetTX b), None)
  | None => Ok (0%float, Some "Unknown instance type")
  end.

Record ThrottledReplicas : Type := mkThrottledReplicas {
  Leaders : list Broker;
  Followers : list Broker
}.

(** [ThrottledReplicas.highestLeaderNetTX]: the state of the loop is the
    pair of [hwm] and [broker]. *)
Definition highest_step (acc : float * option Broker) (b : Broker)
  : float * option Broker :=
  if PrimFloat.ltb acc.1 (NetTX b) then (NetTX b, Some b) else acc.

Definition highestLeaderNetTX (t : ThrottledReplicas) : option Broker :=
  (fold_left highest_step (Leaders t) (0%float, None)).2.

(** What the loop has established after the leaders [seen]: no leader seen
    exceeds the mark, and the mark is 0.00 or the throughput of the broker
    held, which is positive. *)
Definition high_water_mark (seen : list Broker) (acc : float * option Broker) : Prop :=
  Forall (fun l => PrimFloat.ltb acc.1 (NetTX l) = false) seen
  /\ match acc.2 with
     | None => acc.1 = 0%float
     | Some b => acc.1 = NetTX b /\ b ∈ seen /\ PrimFloat.ltb 0 (NetTX b) = true
     end.

(** The loop of [brokersFromThrottleList] over the replica strings. *)
Fixpoint throttle_loop (rs : list string) (brokers : list Z)
  : result (list Z * option error) :=
  match rs with
  | [] => Ok (brokers, None)
  | r :: rs' =>
      ids ← deref (Split ":" r !! 1%nat);
      match Atoi ids with
      | None => Ok (brokers, Some ("Bad broker ID " ++ ids))
      | Some id => throttle_loop rs' (brokers ++ [id])%list
      end
  end.

Definition brokersFromThrottleList (l : string) : result (list Z * option error) :=
  throttle_loop (Split "," l) [].

(** An entry the loop gets past: it has a [':'] and the field after it is
    an integer. *)
Definition entry_ok (r : string) : Prop :=
  exists ids id, Split ":" r !! 1%nat = Some ids /\ Atoi ids = Some id.


(** *** The order of [range] over a map, and the services called

    Go leaves the order in which [range] visits a map unspecified; the
    orders are parameters, as are the ZooKeeper and metrics clients. *)
Class Env : Type := {
  range_ids : gset Z -> list Z;
  range_bids_leader_first : bool;
  range_topics : gmap string TopicConfig -> list (string * TopicConfig);
  GetTopicConfig : string -> TopicConfig + error;
  NewKafkaMetrics : option error;
  GetMetrics : gmap Z Broker + error
}.

(** The first loop of [brokersFromConfig], over ["leader"] and
    ["follower"]: the IDs of the list under key [t], and its error. *)
Definition ids_of_config (c : TopicConfig) (t : string)
  : result (gset Z * list error) :=
  match Config c !! (t ++ ".replication.throttled.replicas") with
  | Some l =>
      r ← brokersFromThrottleList l;
      Ok (list_to_set r.1, match r.2 with Some e => [e] | None => [] end)
  | None => Ok (∅, [])
  end.

(** The lookup loop over one list of [bids]: the brokers found, and the
    error at the first ID without metrics. *)
Fixpoint lookup_loop (b : gmap Z Broker) (ids : list Z) (found : list Broker)
  : list Broker * option error :=
  match ids with
  | [] => (found, None)
  | id :: ids' =>
      match b !! id with
      | Some broker => lookup_loop b ids' (found ++ [broker])%list
      | None =>
          (found, Some ("Broker " ++ fmt_d id
                        ++ " from the topic config not found in the broker metrics map"))
      end
  end.

(** [brokersFromConfig]: the pair (leaders, followers) and the errors. *)
Definition brokersFromConfig `{Env} (b : gmap Z Broker) (c : TopicConfig)
  : result ((list Broker * list Broker) * list error) :=
  l ← ids_of_config c "leader";
  f ← ids_of_config c "follower";
  let errs := (l.2 ++ f.2)%list in
  match errs with
  | _ :: _ => Ok (([], []), errs)
  | [] =>
      if range_bids_leader_first then
        let '(ls, e) := lookup_loop b (range_ids l.1) [] in
        match e with
        | Some e => Ok ((ls, []), [e])
        | None =>
            let '(fs, e) := lookup_loop b (range_ids f.1) [] in
            match e with
            | Some e => Ok ((ls, fs), [e])
            | None => Ok ((ls, fs), [])
            end
        end
      else
        let '(fs, e) := lookup_loop b (range_ids f.1) [] in
        match e with
        | Some e => Ok (([], fs), [e])
        | None =>
            let '(ls, e) := lookup_loop b (range_ids l.1) [] in
            match e with
            | Some e => Ok ((ls, fs), [e])
            | None => Ok ((ls, fs), [])
            end
        end
  end.

(** The loop of [replicasFromTopicConfigs] over the topics. *)
Fixpoint replicas_loop `{Env} (b : gmap Z Broker) (cs : list (string * TopicConfig))
    (t : ThrottledReplicas) (errs : list error)
  : result (ThrottledReplicas * list error) :=
  match cs with
  | [] => Ok (t, errs)
  | (_, c) :: cs' =>
      r ← brokersFromConfig b c;
      replicas_loop b cs'
        (mkThrottledReplicas (Leaders t ++ r.1.1) (Followers t ++ r.1.2))%list
        (errs ++ r.2)%list
  end.

Definition replicasFromTopicConfigs `{Env} (b : gmap Z Broker)
    (c : gmap string TopicConfig) : result (ThrottledReplicas * list error) :=
  replicas_loop b (range_topics c) (mkThrottledReplicas [] []) [].

(** The first loop of [updateReplicationThrottle]: the topic configs, or
    the error of the first topic whose config cannot be fetched. *)
Fixpoint fetch_configs `{Env} (topics : list string)
    (topicConfigs : gmap string TopicConfig) : gmap string TopicConfig + error :=
  match topics with
  | [] => inl topicConfigs
  | t :: ts =>
      match GetTopicConfig t with
      | inr err => inr ("Error fetching topic config: " ++ err ++ Commands.nl)
      | inl config => fetch_configs ts (<[t := config]> topicConfigs)
      end
  end.

(** [updateReplicationThrottle]: the error it returns, [None] for nil.
    Log output is left out. *)
Definition updateReplicationThrottle `{Env} (topics : list string)
  : result (option error) :=
  match fetch_configs topics ∅ with
  | inr e => Ok (Some e)
  | inl topicConfigs =>
      match NewKafkaMetrics with
      | Some err => Ok (Some err)
      | None =>
          match GetMetrics with
          | inr err => Ok (Some err)
          | inl brokerMetrics =>
              (* here [err], the error of [km.GetMetrics()], is nil *)
              let err : option error := None in
              r ← replicasFromTopicConfigs brokerMetrics topicConfigs;
              let '(brokers, errs) := r in
              if bool_decide (errs ≠ []) then Ok err
              else
                let constrainingLeader := highestLeaderNetTX brokers in
                h ← headroom BWLimits constrainingLeader;
                match h.2 with
                | Some err => Ok (Some err)
                | None => Ok None
                end
          end
      end
  end.

End Autothrottle.

(** ** Package commands, continued: the order of offload targets and
    the helper steps of topicmappr *)
Module Steps.
Import Kafkazk Commands.

(** [offloadTargetsBySize]: the broker IDs [t] sorted by the free storage
    that [bm] records for them. Indices are naturals: [sort.Sort] passes
    none below zero. *)
Record offloadTargetsBySize : Type := mkOffloadTargets {
  t : list Z;
  bm : gmap Z Broker
}.

Definition Len (o : offloadTargetsBySize) : Z := Z.of_nat (length (t o)).

(** [o.t[i], o.t[j] = o.t[j], o.t[i]]. *)
Definition Swap (o : offloadTargetsBySize) (i j : nat) : result offloadTargetsBySize :=
  ti ← deref (t o !! i);
  tj ← deref (t o !! j);
  Ok (mkOffloadTargets (<[j := ti]> (<[i := tj]> (t o))) (bm o)).

Definition Less (o : offloadTargetsBySize) (i j : nat) : result bool :=
  ti ← deref (t o !! i);
  bi ← deref (bm o !! ti);
  tj ← deref (t o !! j);
  bj ← deref (bm o !! tj);
  let s1 := StorageFree bi in
  let s2 := StorageFree bj in
  if PrimFloat.ltb s1 s2 then Ok true
  else if PrimFloat.ltb s2 s1 then Ok false
  else Ok (Z.ltb ti tj).

(** What identifies a broker and places it, as opposed to the counters
    that planning updates. *)
Definition broker_identity (b : Broker) : Z * string * bool * bool :=
  (ID b, Locality b, Replace b, New b).

(** Two registries with the same keys and, under each key, a broker of the
    same identity. *)
Definition same_registry (h' h : gmap Z Broker) : Prop :=
  forall k, broker_identity <$> h' !! k = broker_identity <$> h !! k.

(** What the rebalance planner requires of the broker [d] that takes over
    partition [p] from the source: [d] is a broker of the registry [h] and
    no offload target; when the move is scoped to the locality, [d] is on
    the source's rack [targetLocality] and is not the source; otherwise [d]
    is none of the partition's other replicas and shares a rack with none
    of them (replicas marked for replacement and brokers without a rack
    aside). *)
Definition placement_ok (scoped : bool) (source : Z) (targetLocality : string)
    (offload : gset Z) (h : gmap Z Broker) (p : Partition) (d : Broker) : Prop :=
  (exists k b, h !! k = Some b /\ broker_identity b = broker_identity d)
  /\ (ID d ∉ offload)
  /\ if scoped then Locality d = targetLocality /\ ID d <> source
     else forall id rb, id ∈ Replicas p -> id <> source -> h !! id = Some rb ->
            Replace rb = false ->
            ID d <> ID rb /\ (Locality rb <> "" -> Locality d <> Locality rb).

(** Every pair of the plan leads from an offload target to a broker that
    is none. *)
Definition plan_separates (offload : gset Z)
    (plan : gmap string (gmap Z (list (Z * Z)))) : Prop :=
  forall topic inner n pairs,
    plan !! topic = Some inner -> inner !! n = Some pairs ->
    Forall (fun relo => relo.1 ∈ offload /\ (relo.2 ∉ offload)) pairs.


(** [notInReplicaSet]. *)
Fixpoint notInReplicaSet (id : Z) (rs : list Z) : bool :=
  match rs with
  | [] => true
  | r :: rs' => if Z.eqb r id then false else notInReplicaSet id rs'
  end.

(** Methods of [kafkazk.PartitionMap] that this snapshot does not contain:
    [pm.Topics()], [pm.ReplicaSets(topic)], the replica set of each
    partition number of the topic, and [pm.Copy()]. Modelled from the spec:
    a copy holds the partitions of the map in the same order ("iteration
    order is preserved across Copy"); nothing is assumed of the version it
    carries. *)
Class PartitionMapEnv : Type := {
  Topics : PartitionMap -> list string;
  ReplicaSets : PartitionMap -> string -> gmap Z (list Z);
  Copy : PartitionMap -> PartitionMap;
  Copy_Partitions : forall pm, Partitions (Copy pm) = Partitions pm
}.

(** The body of the inner loop of [phasedReassignment] for one partition:
    [rs[partn.Partition][0]] panics when the partition has no replica set
    in [rs], or an empty one. *)
Definition phase_partition (topic : string) (rs : gmap Z (list Z))
    (partn : Partition) : result Partition :=
  if String.eqb (Topic partn) topic then
    leader ← deref (default [] (rs !! PartitionN partn) !! 0%nat);
    if notInReplicaSet leader (Replicas partn)
    then Ok (mkPartition (Topic partn) (PartitionN partn) (leader :: Replicas partn))
    else Ok partn
  else Ok partn.

(** The leader that [pm1] records for the partition: [rs[partn.Partition][0]]
    for [rs] the replica sets of the partition's topic. *)
Definition old_leader `{PartitionMapEnv} (pm1 : PartitionMap) (partn : Partition)
  : option Z :=
  default [] (ReplicaSets pm1 (Topic partn) !! PartitionN partn) !! 0%nat.

(** A partition of the output map and what [phasedReassignment] makes of
    it: the same topic and number, and the same replicas, or the same
    replicas behind the old leader, which was not among them. *)
Definition phased `{PartitionMapEnv} (pm1 : PartitionMap) (p p' : Partition) : Prop :=
  Topic p' = Topic p /\ PartitionN p' = PartitionN p
  /\ (Replicas p' = Replicas p
      \/ exists l, old_leader pm1 p = Some l /\ (l ∉ Replicas p)
                   /\ Replicas p' = l :: Replicas p).

(** The old leader is among the replicas of the partition. *)
Definition has_old_leader `{PartitionMapEnv} (pm1 : PartitionMap) (q : Partition) : Prop :=
  exists l, old_leader pm1 q = Some l /\ l ∈ Replicas q.

(** The inner loop, over the partitions of the copy. *)
Fixpoint phase_partitions (topic : string) (rs : gmap Z (list Z))
    (parts : list Partition) : result (list Partition) :=
  match parts with
  | [] => Ok []
  | partn :: rest =>
      partn' ← phase_partition topic rs partn;
      rest' ← phase_partitions topic rs rest;
      Ok (partn' :: rest')
  end.

(** The outer loop, over the topics of the output map. *)
Fixpoint phase_topics `{PartitionMapEnv} (pm1 : PartitionMap) (topics : list string)
    (parts : list Partition) : result (list Partition) :=
  match topics with
  | [] => Ok parts
  | topic :: rest =>
      parts' ← phase_partitions topic (ReplicaSets pm1 topic) parts;
      phase_topics pm1 rest parts'
  end.

(** [phasedReassignment]: the loops rewrite the partitions of the copy
    [phase1pm] in place, and the copy is returned. *)
Definition phasedReassignment `{PartitionMapEnv} (pm1 pm2 : PartitionMap)
  : result PartitionMap :=
  let topics := Topics pm2 in
  let phase1pm := Copy pm2 in
  parts ← phase_topics pm1 topics (Partitions phase1pm);
  Ok (mkPartitionMap (Version phase1pm) parts).

(** A send on a channel with a buffer of [cap] messages and no receiver
    yet: [None] when the buffer is full and the send blocks for ever. *)
Definition chan_send (cap : nat) (buf : list string) (m : string)
  : option (list string) :=
  if (length buf <? cap)%nat then Some (buf ++ [m])%list else None.

Definition send_if (cond : bool) (cap : nat) (m : string) (buf : list string)
  : option (list string) :=
  if cond then chan_send cap buf m else Some buf.

(** [printChangesActions], with the flags [replication], [force-rebuild]
    and [optimize-leadership]: what it prints, or [None] when a send on
    [actions] blocks. *)
Definition printChangesActions `{Env} (r : Z) (fr ol : bool) (bs : BrokerStatus.t)
  : option (list string) :=
  let change := int_wrap (BrokerStatus.New bs - BrokerStatus.Replace bs) in
  let summary :=
    indent ++ "Replacing " ++ fmt_d (BrokerStatus.Replace bs)
    ++ ", added " ++ fmt_d (BrokerStatus.New bs)
    ++ ", missing "
    ++ fmt_d (int_wrap (BrokerStatus.Missing bs + BrokerStatus.OldMissing bs))
    ++ ", total count changed by " ++ fmt_d change ++ nl in
  actions ← send_if (Z.leb 0 change && Z.ltb 0 (BrokerStatus.Replace bs)) 5
    ("Rebuild topic with " ++ fmt_d (BrokerStatus.Replace bs)
     ++ " broker(s) marked for replacement") [];
  actions ← send_if (Z.ltb 0 change && Z.eqb (BrokerStatus.Replace bs) 0) 5
    ("Expanding/rebalancing topic with " ++ fmt_d (BrokerStatus.New bs)
     ++ " additional broker(s) (this is a no-op unless --force-rebuild is specified)")
    actions;
  actions ← send_if (Z.ltb change 0) 5
    ("Shrinking topic by " ++ fmt_d (int_wrap (- change)) ++ " broker(s)") actions;
  actions ← send_if fr 5 "Force rebuilding map" actions;
  actions ← send_if (Z.ltb 0 r) 5
    ("Setting replication factor to " ++ fmt_d r) actions;
  actions ← send_if ol 5 "Optimizing leader/follower ratios" actions;
  let header := nl ++ "Action:" ++ nl in
  let lines := match actions with
               | [] => [indent ++ "no-op" ++ nl]
               | _ => (fun a => indent ++ a ++ nl) <$> actions
               end in
  Some (summary :: header :: lines).

End Steps.

(** ** Instances of the parameters, to run the definitions on inputs *)
Module Instances.
Import Kafkazk Commands.

(** The shuffle that leaves the list in the order it has. *)
Definition identity_shuffle : PseudoShuffle :=
  {| SortPseudoShuffle := fun _ l => l;
     SortPseudoShuffle_perm := fun _ l => Permutation_refl l |}.

Definition float_sum (l : list float) : float :=
  fold_left PrimFloat.add l 0%float.

Definition float_count {A : Type} (l : list A) : float :=
  fold_left (fun c _ => PrimFloat.add c 1%float) l 0%float.

(** Modelled from the spec: [BrokerMap.Mean], the mean of storage_free over
    the brokers of the registry. *)
Definition Mean (bm : gmap Z Broker) : float :=
  PrimFloat.div (float_sum (StorageFree <$> (map_to_list bm).*2))
                (float_count (map_to_list bm)).

(** Modelled from the spec: [BrokerMap.HMean], the harmonic mean of
    storage_free. *)
Definition HMean (bm : gmap Z Broker) : float :=
  PrimFloat.div (float_count (map_to_list bm))
    (float_sum ((fun b => PrimFloat.div 1%float (StorageFree b)) <$> (map_to_list bm).*2)).

(** Modelled from the spec: [BrokerMap.BelowMean], the IDs of the non-new
    brokers whose storage_free is at least [d * m] below [m], in ascending
    order. *)
Definition BelowMean (bm : gmap Z Broker) (d : float) (f : unit -> float) : list Z :=
  let m := f tt in
  sort_Ints (ID <$> List.filter
    (fun b => negb (New b)
              && PrimFloat.leb (StorageFree b) (PrimFloat.sub m (PrimFloat.mul d m)))
    (map_to_list bm).*2).

(** Modelled from the spec: [BrokerMap.Update], which marks the brokers that
    the operator's list leaves out for replacement and adds the IDs it
    brings in as new brokers. *)
Definition Update (bm : gmap Z Broker) (ids : list Z) (_ : unit)
  : gmap Z Broker * BrokerStatus.t * list string :=
  let replaced := List.filter (fun k => negb (bool_decide (k ∈ ids))) (map_to_list bm).*1 in
  let added := List.filter (fun k => bool_decide (bm !! k = None)) ids in
  let bm1 := fold_left (fun m k =>
               alter (fun b => mkBroker (ID b) (Locality b) (Used b) (StorageFree b)
                                        true (New b)) k m) replaced bm in
  let bm2 := fold_left (fun m k => <[k := mkBroker k "" 0 0%float false true]> m)
               added bm1 in
  (bm2,
   BrokerStatus.mk (Z.of_nat (length added)) 0 0 (Z.of_nat (length replaced)),
   (fun k => "Broker " ++ fmt_d k ++ " marked for removal") <$> replaced).

Definition same_partition (p q : Partition) : bool :=
  String.eqb (Topic p) (Topic q) && Z.eqb (PartitionN p) (PartitionN q).

(** Modelled from the spec: mappings as the partitions assigned to each
    broker, largest first; sizes from the partition-meta map, 0 when
    absent. *)
Definition example_env : Env :=
  {| Mappings := gmap Z (list Partition);
     PartitionMetaMap := gmap string (gmap Z float);
     BrokerMetaMap := unit;
     LargestPartitions := fun m id k _ => take (Z.to_nat k) (default [] (m !! id));
     Mappings_Remove := fun m id p =>
       alter (List.filter (fun q => negb (same_partition p q))) id m;
     PartitionMetaMap_Size := fun pmm p =>
       default 0%float (pmm !! Topic p ≫= fun t => t !! PartitionN p);
     BrokerMap_Mean := Mean;
     BrokerMap_HMean := HMean;
     BrokerMap_List := fun bm => (map_to_list bm).*1;
     BrokerMap_Filter := fun bm f => List.filter f (map_to_list bm).*2;
     BrokerMap_BelowMean := BelowMean;
     BrokerMap_Update := Update;
     BrokerStatus_Changes := fun c =>
       negb (Z.eqb (BrokerStatus.New c) 0) || negb (Z.eqb (BrokerStatus.Missing c) 0)
       || negb (Z.eqb (BrokerStatus.OldMissing c) 0)
       || negb (Z.eqb (BrokerStatus.Replace c) 0);
     SimpleLeaderOptimization := fun pm => pm;
     ensureBrokerMetrics := fun _ _ => IO [] (Returns tt);
     indent := "  ";
     div := 1073741824%float;
     fmt_2f := fun _ => "?" |}.

(** Three brokers with 100, 100 and 20 bytes free; broker 1003 is the
    offload target and holds partition T/0, of size 10. *)
Definition example_brokers : gmap Z Broker :=
  <[1001 := mkBroker 1001 "a" 0 100%float false false]>
    (<[1002 := mkBroker 1002 "b" 0 100%float false false]>
       (<[1003 := mkBroker 1003 "c" 0 20%float false false]> ∅)).

Definition example_partition : Partition := mkPartition "T" 0 [1003].

Definition example_params : planRelocationsForBrokerParams (H := example_env) :=
  mkParams example_env 1003 ∅ {[1003 := [example_partition]]} example_brokers
           {["T" := {[0 := 10%float]}]} ∅ 1 10 {[1003]}.

Definition example_flags : Flags := mkFlags false 0.5%float false.

(** The same registry, with T/0 replicated on brokers 1003 and 1001. *)
Definition replicated_partition : Partition := mkPartition "T" 0 [1003; 1001].

Definition replicated_params : planRelocationsForBrokerParams (H := example_env) :=
  mkParams example_env 1003 ∅ {[1003 := [replicated_partition]]} example_brokers
           {["T" := {[0 := 10%float]}]} ∅ 1 10 {[1003]}.



(** The parameters as the call of [planRelocationsForBroker] leaves
    them. *)
Definition planned (params : planRelocationsForBrokerParams (H := example_env))
  : planRelocationsForBrokerParams (H := example_env) :=
  match planRelocationsForBroker (H0 := identity_shuffle) example_flags params with
  | Ok r => r.2
  | Panic => params
  end.

(** A metrics service and a ZooKeeper that always answer; maps are ranged
    over in key order. *)
Definition example_throttle_env (configs : gmap string Autothrottle.TopicConfig)
    (metrics : gmap Z Autothrottle.Broker) : Autothrottle.Env :=
  {| Autothrottle.range_ids := elements;
     Autothrottle.range_bids_leader_first := true;
     Autothrottle.range_topics := map_to_list;
     Autothrottle.GetTopicConfig := fun t =>
       match configs !! t with
       | Some c => inl c
       | None => inr "node does not exist"
       end;
     Autothrottle.NewKafkaMetrics := None;
     Autothrottle.GetMetrics := inl metrics |}.

(** The topic config of the mock ZooKeeper, cut to one leader and one
    follower. *)
Definition example_configs : gmap string Autothrottle.TopicConfig :=
  {["test_topic" := Autothrottle.mkTopicConfig 1
      (<["leader.replication.throttled.replicas" := "2:1001"]>
         (<["follower.replication.throttled.replicas" := "3:1005"]> ∅))]}.

(** Metrics in which the leader sends nothing. *)
Definition idle_metrics : gmap Z Autothrottle.Broker :=
  <[1001 := Autothrottle.mkBroker 1001 "d2.xlarge" 0%float]>
    (<[1005 := Autothrottle.mkBroker 1005 "d2.xlarge" 10%float]> ∅).

End Instances.

(** Topics in order of first appearance, and replica sets read off the
    partition list, as instances of the missing methods. *)
Module StepsInstances.
Import Commands Steps.

Fixpoint topics_of (parts : list Partition) : list string :=
  match parts with
  | [] => []
  | p :: rest =>
      let ts := topics_of rest in
      if bool_decide (Topic p ∈ ts) then ts else Topic p :: ts
  end.

Definition replica_sets_of (pm : PartitionMap) (topic : string) : gmap Z (list Z) :=
  fold_left (fun rs p => if String.eqb (Topic p) topic
                         then <[PartitionN p := Replicas p]> rs else rs)
            (Partitions pm) ∅.

Definition example_pm_env : PartitionMapEnv :=
  {| Topics := fun pm => topics_of (Partitions pm);
     ReplicaSets := replica_sets_of;
     Copy := fun pm => pm;
     Copy_Partitions := fun pm => eq_refl |}.

(** The current map, with T/0 led by 1001 and T/1 by 1002, and the map
    to move to. *)
Definition current_map : PartitionMap :=
  mkPartitionMap 1 [mkPartition "T" 0 [1001; 1002]; mkPartition "T" 1 [1002; 1003]].

Definition target_map : PartitionMap :=
  mkPartitionMap 1 [mkPartition "T" 0 [1004; 1002]; mkPartition "T" 1 [1003; 1002]].

End StepsInstances.

(** * Properties *)

Local Open Scope list_scope.

(** ** float64 facts *)
Module GoFloat.

Lemma Prim2SF_zero : Prim2SF 0%float = S754_zero false.
Proof. reflexivity. Qed.

(** [x - 0 = x] for every binary64 value, NaN and both zeros included. *)
Lemma sub_zero (x : float) : PrimFloat.sub x 0%float = x.
Proof.
  apply Prim2SF_inj. rewrite sub_spec, Prim2SF_zero.
  unfold SF64sub, SFsub.
  destruct (Prim2SF x) as [s | s | | s m e]; try reflexivity.
  destruct s; reflexivity.
Qed.

(** [x <= 0] excludes [0 < x]. *)
Lemma leb_zero_not_gt (x : float) :
  PrimFloat.leb x 0%float = true -> PrimFloat.ltb 0%float x = false.
Proof.
  rewrite leb_spec, ltb_spec, Prim2SF_zero.
  unfold SFleb, SFltb, SFcompare.
  destruct (Prim2SF x) as [s | s | | s m e]; try reflexivity;
    destruct s; simpl; congruence.
Qed.

End GoFloat.

(** ** Constraints and candidate selection *)
Module KafkazkProofs.
Import Kafkazk.

(** C3. A broker fails the constraint check exactly when
    [storage_free - request_size < 0], or its locality is in the forbidden
    localities, or its ID is in the forbidden IDs; the checks run in that
    order, so the error names the first condition that holds: storage
    ("Locality ... exhausted of storage capacity"), then locality
    ("Locality ... exhausted of available brokers"), then ID ("ID ...
    already in replica set"). The subtraction and the comparison are those
    of binary64; a map forbids a key that it holds with the value true. *)
Theorem passes_checks_in_order (c : constraints) (b : Broker) :
  let storage :=
    PrimFloat.ltb (PrimFloat.sub (StorageFree b) (requestSize c)) 0%float = true in
  let forbidden_locality := locality c !! Locality b = Some true in
  let forbidden_id := id c !! ID b = Some true in
  (passes c b <> None <-> storage \/ forbidden_locality \/ forbidden_id)
  /\ (storage ->
      passes c b
      = Some (mkErrNoBrokers
                ("Locality " ++ Locality b ++ " exhausted of storage capacity")%string))
  /\ (~ storage -> forbidden_locality ->
      passes c b
      = Some (mkErrNoBrokers
                ("Locality " ++ Locality b ++ " exhausted of available brokers")%string))
  /\ (~ storage -> ~ forbidden_locality -> forbidden_id ->
      passes c b
      = Some (mkErrNoBrokers
                ("ID " ++ fmt_d (ID b) ++ " already in replica set")%string)).
Proof.
  cbv zeta. unfold passes, storage_exhausted, locality_forbidden, id_forbidden,
    msg_storage, msg_locality, msg_id, map_get.
  destruct (PrimFloat.ltb (PrimFloat.sub (StorageFree b) (requestSize c)) 0%float).
  { split; [split; [auto | discriminate] |].
    split; [reflexivity |].
    split; intros Hn; exfalso; apply Hn; reflexivity. }
  assert (Hlocality : forall o : option bool,
             default false o = true <-> o = Some true).
  { intros [[|] |]; simpl; split; congruence. }
  destruct (default false (locality c !! Locality b)) eqn:Hl.
  { apply Hlocality in Hl.
    split; [split; [auto | discriminate] |].
    split; [discriminate |]. split; [reflexivity |].
    intros _ Hn. contradiction. }
  assert (Hnl : locality c !! Locality b <> Some true).
  { intros Heq. apply Hlocality in Heq. congruence. }
  destruct (default false (id c !! ID b)) eqn:Hi.
  { apply Hlocality in Hi.
    split; [split; [auto | discriminate] |].
    split; [discriminate |]. split; [contradiction |]. reflexivity. }
  assert (Hni : id c !! ID b <> Some true).
  { intros Heq. apply Hlocality in Heq. congruence. }
  split.
  - split; [congruence |]. intros [Hs | [Hs | Hs]]; [discriminate | |]; contradiction.
  - split; [discriminate |]. split; [contradiction |]. contradiction.
Qed.

(** The broker [{ID: 1000, Locality: "a"}] against constraints that forbid
    both: the locality error is reported, the ID check is not reached. *)
Lemma passes_checks_in_order_witness :
  passes (mkConstraints 0%float {["a" := true]} {[1000 := true]})
         (mkBroker 1000 "a" 0 0%float false false)
  = Some (mkErrNoBrokers "Locality a exhausted of available brokers").
Proof.
  apply (passes_checks_in_order
           (mkConstraints 0%float {["a" := true]} {[1000 := true]})
           (mkBroker 1000 "a" 0 0%float false false)).
  - intros Hlt. vm_compute in Hlt. discriminate.
  - reflexivity.
Defined.

(** *** The empty locality *)

Lemma add_locality_empty (l : gmap string bool) (b : Broker) :
  add_locality l b !! "" = l !! "".
Proof.
  unfold add_locality.
  destruct (String.eqb (Locality b) "") eqn:E; [reflexivity |].
  apply String.eqb_neq in E. apply lookup_insert_ne. exact E.
Qed.

Lemma merge_step_empty (c : constraints) (b : Broker) :
  locality (merge_step c b) !! "" = locality c !! "".
Proof.
  unfold merge_step. destruct (Replace b); [reflexivity |].
  apply add_locality_empty.
Qed.

Lemma merge_fold_empty (bl : list Broker) (c : constraints) :
  locality (fold_left merge_step bl c) !! "" = locality c !! "".
Proof.
  revert c. induction bl as [| b bl IH]; intros c; simpl; [reflexivity |].
  rewrite IH. apply merge_step_empty.
Qed.

Lemma locality_forbidden_empty (c : constraints) (b : Broker) :
  locality c !! "" = None -> Locality b = "" -> locality_forbidden c b = false.
Proof.
  intros Hc Hb. unfold locality_forbidden, map_get. rewrite Hb, Hc. reflexivity.
Qed.

Lemma id_forbidden_add (c : constraints) (b b' : Broker) :
  id_forbidden (add c b).1 b' = bool_decide (ID b' = ID b) || id_forbidden c b'.
Proof.
  unfold id_forbidden, map_get, add. simpl.
  destruct (decide (ID b' = ID b)) as [-> | Hne].
  - rewrite lookup_insert_eq, bool_decide_eq_true_2 by reflexivity. reflexivity.
  - rewrite lookup_insert_ne by congruence.
    rewrite bool_decide_eq_false_2 by exact Hne. reflexivity.
Qed.

(** C8. A broker with the empty locality is never entered in the forbidden
    localities, by [add] or by [mergeConstraints]; so the locality check
    never rejects such a broker, which passes exactly when the storage and
    ID checks let it, and any number of them, with distinct fresh IDs and
    enough storage, pass one after the other for the same replica set. *)
Theorem empty_locality_never_forbidden :
  (forall c b, locality (add c b).1 !! "" = locality c !! "")
  /\ (forall bl, locality (mergeConstraints bl) !! "" = None)
  /\ (forall c b, locality c !! "" = None -> Locality b = "" ->
        locality_forbidden c b = false
        /\ (passes c b = None <->
            storage_exhausted c b = false /\ id_forbidden c b = false))
  /\ (forall bs c, locality c !! "" = None ->
        Forall (fun b => Locality b = "" /\ storage_exhausted c b = false
                         /\ id_forbidden c b = false) bs ->
        NoDup (ID <$> bs) ->
        pass_all c bs = true).
Proof.
  split; [| split; [| split]].
  - intros c b. apply add_locality_empty.
  - intros bl. unfold mergeConstraints. rewrite merge_fold_empty. reflexivity.
  - intros c b Hc Hb.
    pose proof (locality_forbidden_empty c b Hc Hb) as Hl.
    split; [exact Hl |]. unfold passes. rewrite Hl.
    destruct (storage_exhausted c b), (id_forbidden c b); intuition congruence.
  - induction bs as [| b bs IH]; intros c Hc Hall Hnd; [reflexivity |].
    apply Forall_cons in Hall as [(Hb & Hs & Hi) Hall].
    simpl in Hnd. apply NoDup_cons in Hnd as [Hnotin Hnd].
    cbn [pass_all]. unfold passes.
    rewrite Hs, (locality_forbidden_empty c b Hc Hb), Hi.
    apply IH; [| | exact Hnd].
    + cbn [add fst locality]. rewrite add_locality_empty. exact Hc.
    + apply Forall_forall. intros b' Hin.
      rewrite Forall_forall in Hall. destruct (Hall b' Hin) as (Hb' & Hs' & Hi').
      split; [exact Hb' |]. split; [exact Hs' |].
      rewrite id_forbidden_add, Hi', orb_false_r.
      apply bool_decide_eq_false_2. intros Heq. apply Hnotin.
      rewrite <- Heq. apply list_elem_of_fmap. exists b'. split; [reflexivity | exact Hin].
Qed.

(** Three rackless brokers fill three slots of one replica set. *)
Lemma empty_locality_never_forbidden_witness :
  pass_all newConstraints
    [mkBroker 1001 "" 0 0%float false false;
     mkBroker 1002 "" 0 0%float false false;
     mkBroker 1003 "" 0 0%float false false] = true.
Proof.
  destruct empty_locality_never_forbidden as (_ & _ & _ & H).
  apply H.
  - reflexivity.
  - repeat constructor.
  - compute_done.
Defined.

(** *** Sorting and the candidate loop *)

Lemma resolve_Ok (h : gmap Z Broker) (l : list Z) (bl : list (Z * Broker)) :
  resolve h l = Ok bl ->
  bl.*1 = l /\ Forall (fun x => h !! x.1 = Some x.2) bl.
Proof.
  revert bl. induction l as [| a l IH]; intros bl; simpl.
  - intros [= <-]. split; [reflexivity | constructor].
  - destruct (h !! a) as [b |] eqn:Ha; simpl; [| discriminate].
    destruct (resolve h l) as [bs |]; simpl; [| discriminate].
    intros [= <-]. destruct (IH bs eq_refl) as [Hf HF].
    split; [rewrite fmap_cons, Hf; reflexivity |]. constructor; [exact Ha | exact HF].
Qed.

Lemma resolve_total (h : gmap Z Broker) (l : list Z) :
  Forall (fun a => is_Some (h !! a)) l -> exists bl, resolve h l = Ok bl.
Proof.
  induction 1 as [| a l [b Hb] _ [bl IH]]; simpl.
  - eexists; reflexivity.
  - rewrite Hb, IH. simpl. eexists; reflexivity.
Qed.

Lemma insert_by_perm {A : Type} (less : A -> A -> bool) (x : A) (l : list A) :
  insert_by less x l ≡ₚ x :: l.
Proof.
  induction l as [| y l IH]; simpl; [reflexivity |].
  destruct (less y x); [| reflexivity].
  rewrite IH. apply Permutation_swap.
Qed.

Lemma sort_by_perm {A : Type} (less : A -> A -> bool) (l : list A) :
  sort_by less l ≡ₚ l.
Proof.
  induction l as [| x l IH]; simpl; [reflexivity |].
  rewrite insert_by_perm, IH. reflexivity.
Qed.

Lemma sort_method_perm `{PseudoShuffle} (by_ : string) (p : Z)
    (sort : list (Z * Broker) -> list (Z * Broker)) (l : list (Z * Broker)) :
  sort_method by_ p = Some sort -> sort l ≡ₚ l.
Proof.
  unfold sort_method.
  destruct (String.eqb by_ "count"); [intros [= <-]; apply SortPseudoShuffle_perm |].
  destruct (String.eqb by_ "storage"); [intros [= <-]; apply sort_by_perm |].
  discriminate.
Qed.

(** A list none of whose candidates passes: the loop ends with the error
    of the candidate it examined last, and changes nothing. *)
Lemma candidates_loop_exhausted (h : gmap Z Broker) (c : constraints)
    (l : list (Z * Broker)) (x : Z * Broker) (e : ErrNoBrokers) (err : option error) :
  Forall (fun y => h !! y.1 = Some y.2 /\ passes c y.2 <> None) l ->
  h !! x.1 = Some x.2 -> passes c x.2 = Some e ->
  candidates_loop h c (l ++ [x]).*1 err = Ok (h, c, (None, Some (ErrNoBrokersE e))).
Proof.
  intros HF Hx He. revert err.
  induction HF as [| y l [Hy Hp] _ IH]; intros err; simpl.
  - rewrite Hx. simpl. rewrite He. reflexivity.
  - rewrite Hy. simpl. destruct (passes c y.2) as [e' |]; [apply IH | congruence].
Qed.

(** The first candidate that passes is the one returned: it absorbs the
    request ([add]) and its [Used] counter goes up by one. *)
Lemma candidates_loop_found (h : gmap Z Broker) (c : constraints) (l : list Z)
    (err : option error) (h' : gmap Z Broker) (c' : constraints) (d : Z)
    (err' : option error) :
  candidates_loop h c l err = Ok (h', c', (Some d, err')) ->
  exists b, d ∈ l /\ h !! d = Some b /\ passes c b = None
            /\ c' = (add c b).1
            /\ h' = <[d := set_Used (add c b).2 (int_wrap (Used (add c b).2 + 1))]> h.
Proof.
  revert err. induction l as [| a l IH]; intros err; simpl; [discriminate |].
  destruct (h !! a) as [b |] eqn:Ha; simpl; [| discriminate].
  destruct (passes c b) as [e |] eqn:Hp.
  - intros Hl. destruct (IH _ Hl) as (b' & Hin & Hrest).
    exists b'. split; [right; exact Hin | exact Hrest].
  - intros [= <- <- <-]. exists b.
    split; [left |]. repeat split; assumption.
Qed.

Lemma candidates_loop_not_found (h : gmap Z Broker) (c : constraints) (l : list Z)
    (err : option error) (h' : gmap Z Broker) (c' : constraints)
    (err' : option error) :
  candidates_loop h c l err = Ok (h', c', (None, err')) -> h' = h /\ c' = c.
Proof.
  revert err. induction l as [| a l IH]; intros err; simpl.
  - intros [= <- <- _]. split; reflexivity.
  - destruct (h !! a) as [b |]; simpl; [| discriminate].
    destruct (passes c b); [apply IH | discriminate].
Qed.

(** C4, amended. For a non-empty broker list without nil pointers and a
    valid selection method: when no broker of the sorted list passes the
    constraints, [bestCandidate] returns no broker and the violation of the
    broker it examined last (the last of the sorted list), and leaves the
    store of brokers and the constraints as they were. *)
Theorem bestCandidate_exhausted `{PseudoShuffle} (h : gmap Z Broker) (b : list Z)
    (c : constraints) (by_ : string) (p : Z)
    (sort : list (Z * Broker) -> list (Z * Broker)) (bl : list (Z * Broker)) :
  sort_method by_ p = Some sort ->
  resolve h b = Ok bl ->
  b <> [] ->
  Forall (fun x => passes c x.2 <> None) (sort bl) ->
  exists x e,
    last (sort bl) = Some x /\ passes c x.2 = Some e
    /\ bestCandidate h b c by_ p
       = Ok (h, (sort bl).*1, c, (None, Some (ErrNoBrokersE e))).
Proof.
  intros Hsort Hres Hne Hnone.
  pose proof (sort_method_perm by_ p sort bl Hsort) as Hperm.
  destruct (resolve_Ok h b bl Hres) as [Hfst Hlook].
  rewrite <- Hperm in Hlook.
  destruct (sort bl) as [| x l _] eqn:Hs using rev_ind.
  - apply Permutation_nil_l in Hperm. subst bl. simpl in Hfst. congruence.
  - apply Forall_app in Hnone as [Hn1 Hn2]. apply Forall_app in Hlook as [Hl1 Hl2].
    rewrite Forall_singleton in Hn2. rewrite Forall_singleton in Hl2.
    destruct (passes c x.2) as [e |] eqn:He; [| congruence].
    exists x, e. split; [apply last_snoc |]. split; [exact He |].
    unfold bestCandidate. rewrite Hsort, Hres. simpl. rewrite Hs.
    rewrite (candidates_loop_exhausted h c l x e None); [reflexivity | | exact Hl2 | exact He].
    apply Forall_forall. intros z Hz. rewrite Forall_forall in Hl1, Hn1. auto.
Qed.

(** Brokers 1000 (rack a) and 1001 (rack b) against constraints forbidding
    ID 1000 and rack b: the error is that of 1001, examined last. *)
Lemma bestCandidate_exhausted_witness :
  exists x e,
    last (sort_by brokersByStorage_Less
            [(1, mkBroker 1000 "a" 0 0%float false false);
             (2, mkBroker 1001 "b" 0 0%float false false)]) = Some x
    /\ passes (mkConstraints 0%float {["b" := true]} {[1000 := true]}) x.2 = Some e
    /\ bestCandidate (H := Instances.identity_shuffle)
         (<[1 := mkBroker 1000 "a" 0 0%float false false]>
            (<[2 := mkBroker 1001 "b" 0 0%float false false]> ∅))
         [1; 2] (mkConstraints 0%float {["b" := true]} {[1000 := true]}) "storage" 0
       = Ok (<[1 := mkBroker 1000 "a" 0 0%float false false]>
               (<[2 := mkBroker 1001 "b" 0 0%float false false]> ∅),
             (sort_by brokersByStorage_Less
                [(1, mkBroker 1000 "a" 0 0%float false false);
                 (2, mkBroker 1001 "b" 0 0%float false false)]).*1,
             mkConstraints 0%float {["b" := true]} {[1000 := true]},
             (None, Some (ErrNoBrokersE e))).
Proof.
  apply (bestCandidate_exhausted (H := Instances.identity_shuffle)).
  - reflexivity.
  - reflexivity.
  - discriminate.
  - vm_compute. repeat constructor; discriminate.
Defined.

(** [TestBestCandidateByStorage]: four brokers with 0, 1000, 2000 and 3000
    bytes free on racks a, b, c, a; rack c is forbidden and each request
    takes 1000. The first call selects 1003 (at address 3), the second
    1001 (at address 1), the third finds the list exhausted. *)
Example TestBestCandidateByStorage :
  let bl := [0; 1; 2; 3] in
  let h0 : gmap Z Broker :=
    <[0 := mkBroker 1000 "a" 0 0%float false false]>
      (<[1 := mkBroker 1001 "b" 1 1000%float false false]>
         (<[2 := mkBroker 1002 "c" 2 2000%float false false]>
            (<[3 := mkBroker 1003 "a" 3 3000%float false false]> ∅))) in
  let c0 := mkConstraints 1000%float {["c" := true]} ∅ in
  rbind (bestCandidate (H := Instances.identity_shuffle) h0 bl c0 "storage" 1)
    (fun r1 =>
     rbind (bestCandidate (H := Instances.identity_shuffle)
              r1.1.1.1 r1.1.1.2 r1.1.2 "storage" 1)
       (fun r2 =>
        rbind (bestCandidate (H := Instances.identity_shuffle)
                 r2.1.1.1 r2.1.1.2 r2.1.2 "storage" 1)
          (fun r3 => Ok (r1.2.1, r2.2.1, r3.2.1, option_map Error r3.2.2))))
  = Ok (Some 3, Some 1, None, Some "Locality b exhausted of storage capacity").
Proof. vm_compute. reflexivity. Qed.

(** [TestMergeConstraints]: five brokers on racks a, b, c, a, b, the last
    marked for replacement; IDs 1000 to 1003 and the three racks are
    merged, ID 1004 is not. *)
Example TestMergeConstraints :
  let c := mergeConstraints
    [mkBroker 1000 "a" 0 0%float false false; mkBroker 1001 "b" 0 0%float false false;
     mkBroker 1002 "c" 0 0%float false false; mkBroker 1003 "a" 0 0%float false false;
     mkBroker 1004 "b" 0 0%float true false] in
  (map_get (id c) <$> [1000; 1001; 1002; 1003; 1004]) = [true; true; true; true; false]
  /\ (map_get (locality c) <$> ["a"; "b"; "c"]) = [true; true; true].
Proof. split; vm_compute; reflexivity. Qed.

(** [TestConstraintsAdd]. *)
Example TestConstraintsAdd :
  let c := (add (mergeConstraints [mkBroker 1000 "a" 0 0%float false false])
                (mkBroker 1001 "b" 0 0%float false false)).1 in
  (map_get (id c) <$> [1000; 1001]) = [true; true]
  /\ (map_get (locality c) <$> ["a"; "b"]) = [true; true].
Proof. split; vm_compute; reflexivity. Qed.

(** C4 as stated fails on the empty list: no broker passes, yet the error
    returned is nil. *)
Lemma bestCandidate_empty_list_nil_error :
  Forall (fun x : Z * Broker => passes newConstraints x.2 <> None) []
  /\ bestCandidate (H := Instances.identity_shuffle) ∅ [] newConstraints "storage" 0
     = Ok (∅, [], newConstraints, (None, None)).
Proof. split; [constructor | reflexivity]. Qed.

End KafkazkProofs.

(** ** Rebalance steps *)
Module CommandsProofs.
Import Kafkazk Commands KafkazkProofs.

(** *** applyRelocationPlan *)

Lemma replace_from_not_source (pairs : list (Z * Z)) (r cur : Z) :
  Forall (fun relo => relo.1 <> r) pairs -> replace_from pairs r cur = cur.
Proof.
  unfold replace_from. intros HF. revert cur.
  induction HF as [| relo rest Hne _ IH]; intros cur; simpl; [reflexivity |].
  rewrite IH. destruct (Z.eqb_spec r relo.1); congruence.
Qed.

Lemma apply_pair_absent (rs : list Z) (s d x : Z) :
  x ∉ rs -> x <> d -> x ∉ apply_pair rs (s, d).
Proof.
  intros Hx Hd Hin. unfold apply_pair in Hin.
  apply list_elem_of_fmap in Hin as (r & Hr & Hin). simpl in Hr.
  destruct (Z.eqb r s); congruence.
Qed.

(** An ID that is not in the replica set is the source of no pair. *)
Lemma absent_is_no_source (pairs : list (Z * Z)) (rs : list Z) (x : Z) :
  x ∉ rs -> no_chain pairs -> sources_present pairs rs ->
  Forall (fun relo => relo.1 <> x) pairs.
Proof.
  revert rs. induction pairs as [| [s d] rest IH]; intros rs Hx Hnc Hsp.
  - constructor.
  - destruct Hnc as [Hlater Hnc]. destruct Hsp as [Hs Hsp]. simpl in *.
    constructor; [simpl; intros ->; contradiction |].
    destruct (Z.eq_dec x d) as [-> | Hd]; [exact Hlater |].
    apply (IH (apply_pair rs (s, d))); [| exact Hnc | exact Hsp].
    apply apply_pair_absent; assumption.
Qed.

Lemma replace_replica_cons (s d : Z) (rest : list (Z * Z)) (rs : list Z) (r : Z) :
  no_chain ((s, d) :: rest) -> sources_present rest (apply_pair rs (s, d)) ->
  replace_replica ((s, d) :: rest) r
  = replace_replica rest (if Z.eqb r s then d else r).
Proof.
  intros [Hlater Hnc] Hsp. unfold replace_replica, replace_from. simpl.
  destruct (Z.eqb_spec r s) as [-> | Hne]; [| reflexivity].
  change (replace_from rest s d = replace_from rest d d).
  rewrite (replace_from_not_source rest d d) by exact Hlater.
  apply replace_from_not_source.
  destruct (Z.eq_dec s d) as [-> | Hd]; [exact Hlater |].
  apply (absent_is_no_source rest (apply_pair rs (s, d))); [| exact Hnc | exact Hsp].
  unfold apply_pair. intros Hin.
  apply list_elem_of_fmap in Hin as (r & Hr & _). simpl in Hr.
  destruct (Z.eqb_spec r s); congruence.
Qed.

(** Without chained pairs the walk and the pair-by-pair rewriting agree. *)
Lemma replace_replica_chain (pairs : list (Z * Z)) (rs : list Z) :
  no_chain pairs -> sources_present pairs rs ->
  replace_replica pairs <$> rs = apply_chain pairs rs.
Proof.
  revert rs. induction pairs as [| [s d] rest IH]; intros rs Hnc Hsp.
  - unfold replace_replica, replace_from, apply_chain. simpl. apply list_fmap_id.
  - destruct Hsp as [Hs Hsp].
    change (apply_chain ((s, d) :: rest) rs)
      with (apply_chain rest (apply_pair rs (s, d))).
    rewrite <- (IH _ (proj2 Hnc) Hsp). unfold apply_pair.
    rewrite <- list_fmap_compose. apply list_fmap_ext. intros i r _. simpl.
    apply (replace_replica_cons s d rest rs r Hnc Hsp).
Qed.




(** *** validateBrokersForRebalance *)




(** *** Choosing a destination *)

Lemma merge_fold_requestSize (bl : list Broker) (c : constraints) :
  requestSize (fold_left merge_step bl c) = requestSize c.
Proof.
  revert c. induction bl as [| b bl IH]; intros c; simpl; [reflexivity |].
  rewrite IH. unfold merge_step. destruct (Replace b); reflexivity.
Qed.

Lemma add_offload_fold (ids : list Z) (c : constraints) :
  requestSize (fold_left add_target ids c) = requestSize c
  /\ forall k, k ∈ ids \/ map_get (id c) k = true ->
       map_get (id (fold_left add_target ids c)) k = true.
Proof.
  revert c. induction ids as [| i ids IH]; intros c; cbn [fold_left].
  - split; [reflexivity |]. intros k [Hk | Hk]; [inversion Hk | exact Hk].
  - destruct (IH (add_target c i)) as [Hr Hid].
    split; [rewrite Hr; reflexivity |].
    intros k Hk. apply Hid.
    destruct (decide (k = i)) as [-> | Hne].
    + right. unfold map_get. simpl. rewrite lookup_insert_eq. reflexivity.
    + destruct Hk as [Hk | Hk].
      * left. apply elem_of_cons in Hk as [? | ?]; [contradiction | assumption].
      * right. unfold map_get in *. simpl. rewrite lookup_insert_ne by congruence.
        exact Hk.
Qed.

Lemma add_offload_targets_spec (c : constraints) (offload : gset Z) :
  requestSize (add_offload_targets c offload) = requestSize c
  /\ forall k, k ∈ offload -> map_get (id (add_offload_targets c offload)) k = true.
Proof.
  unfold add_offload_targets.
  destruct (add_offload_fold (elements offload) c) as [Hr Hid].
  split; [exact Hr |]. intros k Hk. apply Hid. left. apply elem_of_elements. exact Hk.
Qed.

Lemma set_StorageFree_same (b : Broker) : set_StorageFree b (StorageFree b) = b.
Proof. destruct b; reflexivity. Qed.

(** Choosing a destination: without one the store is as it was; the one
    chosen is a broker of the map, other than the source when the move is
    scoped to the locality or the source is an offload target, and choosing
    it changes at most its [Used] counter. *)
Lemma select_destination_spec `{PseudoShuffle} (scoped : bool) (source : Z)
    (targetLocality : string) (offload : gset Z) (h : gmap Z Broker)
    (brokerList : list Z) (p : Partition) (h1 : gmap Z Broker) (dest : option Z) :
  select_destination scoped source targetLocality offload h brokerList p
  = Ok (h1, dest) ->
  match dest with
  | None => h1 = h
  | Some dest =>
      exists d, h !! dest = Some d
        /\ (scoped = true \/ source ∈ offload -> ID d <> source)
        /\ (h1 = h \/ exists u, h1 = <[dest := set_Used d u]> h)
  end.
Proof.
  unfold select_destination, SortByStorage. intros Hsel.
  destruct (resolve h brokerList) as [bl |] eqn:Hres; simpl in Hsel; [| discriminate].
  destruct (resolve_Ok h brokerList bl Hres) as [_ Hlook].
  rewrite <- (sort_by_perm brokersByStorage_Less bl) in Hlook.
  destruct scoped.
  - destruct (List.find _ _) as [x |] eqn:Hfind; simpl in Hsel;
      injection Hsel as <- <-; [| reflexivity].
    apply find_some in Hfind as [Hin Hok].
    apply list_elem_of_In in Hin. rewrite Forall_forall in Hlook.
    exists x.2. split; [apply Hlook; exact Hin |]. split; [| left; reflexivity].
    intros _. unfold scoped_candidate in Hok.
    apply andb_true_iff in Hok as [Hok _]. apply andb_true_iff in Hok as [_ Hok].
    apply negb_true_iff, Z.eqb_neq in Hok. exact Hok.
  - destruct (resolve h (List.filter _ (Replicas p))) as [replicaSet |];
      simpl in Hsel; [| discriminate].
    set (c := add_offload_targets (mergeConstraints replicaSet.*2) offload) in *.
    unfold bestCandidate in Hsel. simpl in Hsel.
    destruct (resolve h (sort_by brokersByStorage_Less bl).*1) as [bl' |];
      simpl in Hsel; [| discriminate].
    destruct (candidates_loop h c _ None) as [[[h' c'] [cand err]] |] eqn:Hloop;
      simpl in Hsel; [| discriminate].
    injection Hsel as <- <-. destruct cand as [dest |].
    + apply candidates_loop_found in Hloop as (b & _ & Hb & Hpass & _ & ->).
      destruct (add_offload_targets_spec (mergeConstraints replicaSet.*2) offload)
        as [Hreq Hid]. fold c in Hreq, Hid.
      exists b. split; [exact Hb |]. split.
      * intros [? | Hsrc] Heq; [discriminate |]. unfold passes in Hpass.
        assert (Hf : id_forbidden c b = true).
        { unfold id_forbidden. rewrite Heq. apply Hid. exact Hsrc. }
        rewrite Hf in Hpass.
        destruct (storage_exhausted c b), (locality_forbidden c b); discriminate.
      * right. eexists.
        unfold add. cbn [snd]. rewrite Hreq.
        unfold mergeConstraints. rewrite merge_fold_requestSize.
        cbn [requestSize newConstraints].
        rewrite GoFloat.sub_zero, set_StorageFree_same. reflexivity.
    + apply candidates_loop_not_found in Hloop as [-> _]. reflexivity.
Qed.


(** What [add] records for a partition is what [isPlanned] returns for
    it. *)
Lemma isPlanned_relocationPlan_add (r : gmap string (gmap Z (list (Z * Z))))
    (p : Partition) (ids : Z * Z) :
  isPlanned (relocationPlan_add r p ids) p
  = Some (default [] (isPlanned r p) ++ [ids]).
Proof.
  unfold isPlanned, relocationPlan_add.
  rewrite lookup_insert_eq, lookup_insert_eq.
  destruct (r !! Topic p) as [inner |] eqn:Hr.
  - rewrite Hr. reflexivity.
  - rewrite lookup_insert_eq. reflexivity.
Qed.




(** The spec's rebalance scenario: brokers with 100, 100 and 20 free,
    tolerance 0.1, and a partition of size 40 on the broker with 20. Moving
    it would leave the destination with 60, below 0.9 times the mean of
    73.3: the move is rejected and no relocation is planned. *)
Example rebalance_with_tolerance_rejects :
  let params :=
    mkParams Instances.example_env 1003 ∅ {[1003 := [Instances.example_partition]]}
      Instances.example_brokers {["T" := {[0 := 40%float]}]} ∅ 1 10 {[1003]} in
  let fl := mkFlags false (PrimFloat.div 1%float 10%float) false in
  option_map (fun r => (r.1, plan r.2))
    (match planRelocationsForBroker (H0 := Instances.identity_shuffle) fl params with
     | Ok r => Some r
     | Panic => None
     end)
  = Some (0, ∅).
Proof. vm_compute. reflexivity. Qed.

(** *** At most one relocation per call *)

Lemma relocation_step_cases `{Env} `{PseudoShuffle} (fl : Flags)
    (targetLocality : string) (mean : float)
    (s : planRelocationsForBrokerParams) (reloCount : Z) (p : Partition)
    (ctl : loop_ctl) :
  relocation_step fl targetLocality mean s reloCount p = Ok ctl ->
  match ctl with
  | Continue s' | Return s' => s' = set_brokers s (brokers s')
  | Break s' n =>
      n = int_wrap (reloCount + 1)
      /\ sourceID s' = sourceID s
      /\ exists dest,
           plan s' = relocationPlan_add (plan s) p (sourceID s, dest)
           /\ relos s' = <[sourceID s := default [] (relos s !! sourceID s)
                                         ++ [mkRelocation p dest]]> (relos s)
  end.
Proof.
  unfold relocation_step.
  destruct (select_destination _ _ _ _ _ _ _) as [[h1 [dest |]] |];
    cbn [mbind result_bind rbind fst snd]; [| intros [= <-]; reflexivity | discriminate].
  destruct (brokers (set_brokers s h1) !! sourceID s) as [src |];
    cbn [deref mbind result_bind rbind]; [| discriminate].
  destruct (brokers (set_brokers s h1) !! dest) as [d |];
    cbn [deref mbind result_bind rbind]; [| discriminate].
  destruct (PrimFloat.ltb _ _); [intros [= <-]; reflexivity |].
  destruct (PrimFloat.ltb _ _); [intros [= <-]; reflexivity |].
  destruct (_ !! ID d) as [d' |]; cbn [deref mbind result_bind rbind]; [| discriminate].
  intros [= <-]. split; [reflexivity |]. split; [reflexivity |].
  exists (ID d). split; reflexivity.
Qed.

Lemma relocation_loop_at_most_one `{Env} `{PseudoShuffle} (fl : Flags)
    (targetLocality : string) (mean : float) (topPartn : list Partition)
    (s : planRelocationsForBrokerParams) (reloCount n : Z)
    (s' : planRelocationsForBrokerParams) :
  relocation_loop fl targetLocality mean s reloCount topPartn = Ok (n, s') ->
  (n = reloCount /\ plan s' = plan s /\ relos s' = relos s)
  \/ (n = int_wrap (reloCount + 1)
      /\ exists p dest,
           p ∈ topPartn
           /\ plan s' = relocationPlan_add (plan s) p (sourceID s, dest)
           /\ relos s' = <[sourceID s := default [] (relos s !! sourceID s)
                                         ++ [mkRelocation p dest]]> (relos s)).
Proof.
  revert s. induction topPartn as [| p rest IH]; intros s; cbn [relocation_loop].
  - intros [= <- <-]. left. repeat split.
  - destruct (relocation_step fl targetLocality mean s reloCount p) as [ctl |] eqn:Hstep;
      cbn [mbind result_bind rbind]; [| discriminate].
    apply relocation_step_cases in Hstep.
    destruct ctl as [s1 | s1 n1 | s1].
    + intros Hloop. rewrite Hstep in Hloop.
      destruct (IH _ Hloop) as [(-> & Hp & Hr) | (-> & q & dest & Hq & Hp & Hr)].
      * left. repeat split; assumption.
      * right. split; [reflexivity |]. exists q, dest.
        split; [right; exact Hq |]. split; assumption.
    + intros [= <- <-]. destruct Hstep as (-> & _ & dest & Hp & Hr).
      right. split; [reflexivity |]. exists p, dest.
      split; [left |]. split; assumption.
    + intros [= <- <-]. left. rewrite Hstep. repeat split.
Qed.

(** C2. A call of [planRelocationsForBroker] records at most one
    relocation: the count it returns is 0, with the plan and the
    relocations as they were, or 1, with one (source, destination) pair
    added to the plan, for one of the source's top partitions. *)
Theorem planRelocationsForBroker_at_most_one `{Env} `{PseudoShuffle} (fl : Flags)
    (params : planRelocationsForBrokerParams) (n : Z)
    (params' : planRelocationsForBrokerParams) :
  planRelocationsForBroker fl params = Ok (n, params') ->
  (n = 0 /\ plan params' = plan params /\ relos params' = relos params)
  \/ (n = 1
      /\ exists p dest,
           p ∈ LargestPartitions (mappings params) (sourceID params)
                 (topPartitionsLimit params) (partitionMeta params)
           /\ plan params' = relocationPlan_add (plan params) p (sourceID params, dest)
           /\ relos params'
              = <[sourceID params := default [] (relos params !! sourceID params)
                                     ++ [mkRelocation p dest]]> (relos params)).
Proof.
  unfold planRelocationsForBroker.
  destruct (brokers params !! sourceID params) as [src |];
    cbn [deref mbind result_bind rbind]; [| discriminate].
  intros Hloop. apply relocation_loop_at_most_one in Hloop. exact Hloop.
Qed.

(** The call for broker 1003 of the example records the move of T/0 to
    broker 1001 and returns 1. *)
Lemma planRelocationsForBroker_at_most_one_witness :
  exists params',
    planRelocationsForBroker (H := Instances.example_env)
      (H0 := Instances.identity_shuffle) Instances.example_flags
      Instances.example_params = Ok (1, params')
    /\ plan params'
       = relocationPlan_add ∅ Instances.example_partition (1003, 1001).
Proof.
  destruct (planRelocationsForBroker (H := Instances.example_env)
              (H0 := Instances.identity_shuffle) Instances.example_flags
              Instances.example_params) as [[n params'] |] eqn:Hrun;
    [| vm_compute in Hrun; discriminate].
  destruct (planRelocationsForBroker_at_most_one _ _ _ _ Hrun)
    as [(Hn & _) | (Hn & p & dest & _ & Hplan & _)].
  - exfalso. subst n. vm_compute in Hrun. congruence.
  - subst n. exists params'. split; [reflexivity |].
    vm_compute in Hrun. injection Hrun as <-. vm_compute. reflexivity.
Defined.

(** *** The call returns on a well-formed registry *)

Lemma candidates_loop_total (h : gmap Z Broker) (c : constraints) (l : list Z)
    (err : option error) :
  Forall (fun a => is_Some (h !! a)) l -> exists r, candidates_loop h c l err = Ok r.
Proof.
  intros HF. revert err. induction HF as [| a l [b Hb] _ IH]; intros err;
    cbn [candidates_loop]; [eauto |].
  rewrite Hb. cbn [deref mbind result_bind rbind].
  destruct (passes c b); [apply IH |]. destruct (add c b). eauto.
Qed.

Lemma resolved_valid (h : gmap Z Broker) (bl : list (Z * Broker)) :
  Forall (fun x => h !! x.1 = Some x.2) bl -> Forall (fun a => is_Some (h !! a)) bl.*1.
Proof.
  intros HF. apply Forall_fmap. eapply Forall_impl; [exact HF |].
  intros x Hx. simpl. rewrite Hx. eauto.
Qed.

Lemma bestCandidate_total `{PseudoShuffle} (h : gmap Z Broker) (b : list Z)
    (c : constraints) (by_ : string) (p : Z) :
  Forall (fun a => is_Some (h !! a)) b -> exists r, bestCandidate h b c by_ p = Ok r.
Proof.
  intros Hb. unfold bestCandidate.
  destruct (sort_method by_ p) as [sort |] eqn:Hsort; [| eauto].
  destruct (resolve_total h b Hb) as [bl Hres]. rewrite Hres.
  cbn [mbind result_bind rbind].
  destruct (resolve_Ok h b bl Hres) as [_ Hlook].
  rewrite <- (sort_method_perm by_ p sort bl Hsort) in Hlook.
  destruct (candidates_loop_total h c (sort bl).*1 None (resolved_valid _ _ Hlook))
    as [r ->].
  cbn [mbind result_bind rbind]. eauto.
Qed.

Lemma select_destination_total `{PseudoShuffle} (scoped : bool) (source : Z)
    (targetLocality : string) (offload : gset Z) (h : gmap Z Broker)
    (brokerList : list Z) (p : Partition) :
  Forall (fun a => is_Some (h !! a)) brokerList ->
  Forall (fun a => is_Some (h !! a)) (Replicas p) ->
  exists r, select_destination scoped source targetLocality offload h brokerList p = Ok r.
Proof.
  intros Hlist Hrep. unfold select_destination, SortByStorage.
  destruct (resolve_total h brokerList Hlist) as [bl Hres]. rewrite Hres.
  cbn [mbind result_bind rbind].
  destruct scoped; [eauto |].
  destruct (resolve_total h (List.filter (fun id => negb (Z.eqb id source)) (Replicas p)))
    as [replicaSet ->].
  { apply Forall_forall. intros a Ha. apply list_elem_of_In, filter_In in Ha as [Ha _].
    rewrite Forall_forall in Hrep. apply Hrep, list_elem_of_In. exact Ha. }
  cbn [mbind result_bind rbind].
  destruct (resolve_Ok h brokerList bl Hres) as [_ Hlook].
  rewrite <- (sort_by_perm brokersByStorage_Less bl) in Hlook.
  destruct (bestCandidate_total h (sort_by brokersByStorage_Less bl).*1
              (add_offload_targets (mergeConstraints replicaSet.*2) offload)
              "storage" 0 (resolved_valid _ _ Hlook)) as [r ->].
  cbn [mbind result_bind rbind]. eauto.
Qed.

(** The registry as choosing a destination leaves it: the same keys, each
    broker still under its own ID. *)
Lemma select_destination_registry `{PseudoShuffle} (scoped : bool) (source : Z)
    (targetLocality : string) (offload : gset Z) (h : gmap Z Broker)
    (brokerList : list Z) (p : Partition) (h1 : gmap Z Broker) (dest : option Z) :
  select_destination scoped source targetLocality offload h brokerList p = Ok (h1, dest) ->
  BrokerMap_wf h ->
  BrokerMap_wf h1
  /\ (forall k, is_Some (h1 !! k) <-> is_Some (h !! k))
  /\ (forall d, dest = Some d -> exists b, h1 !! d = Some b /\ ID b = d).
Proof.
  intros Hsel Hwf. apply select_destination_spec in Hsel.
  destruct dest as [dest |].
  - destruct Hsel as (d & Hd & _ & [-> | [u ->]]).
    + split; [exact Hwf |]. split; [reflexivity |].
      intros d' [= <-]. exists d. split; [exact Hd | exact (Hwf _ _ Hd)].
    + split; [| split].
      * apply map_Forall_insert_2; [exact (Hwf _ _ Hd) | exact Hwf].
      * intros k. destruct (decide (k = dest)) as [-> | Hk].
        -- rewrite lookup_insert_eq, Hd. split; eauto.
        -- rewrite lookup_insert_ne by congruence. reflexivity.
      * intros d' [= <-]. rewrite lookup_insert_eq. eexists. split; [reflexivity |].
        exact (Hwf _ _ Hd).
  - subst h1. split; [exact Hwf |]. split; [reflexivity | discriminate].
Qed.

Lemma relocation_step_total `{Env} `{PseudoShuffle} (fl : Flags)
    (targetLocality : string) (mean : float)
    (s : planRelocationsForBrokerParams) (reloCount : Z) (p : Partition) :
  Forall (fun a => is_Some (brokers s !! a)) (BrokerMap_List (brokers s)) ->
  Forall (fun a => is_Some (brokers s !! a)) (Replicas p) ->
  BrokerMap_wf (brokers s) ->
  is_Some (brokers s !! sourceID s) ->
  exists ctl,
    relocation_step fl targetLocality mean s reloCount p = Ok ctl
    /\ forall s', ctl = Continue s' ->
         BrokerMap_wf (brokers s')
         /\ forall k, is_Some (brokers s' !! k) <-> is_Some (brokers s !! k).
Proof.
  intros Hlist Hrep Hwf Hsrc. unfold relocation_step.
  destruct (select_destination_total (localityScoped fl) (sourceID s) targetLocality
              (offloadTargetsMap s) (brokers s) (BrokerMap_List (brokers s)) p
              Hlist Hrep) as [[h1 dest] Hsel].
  rewrite Hsel. cbn [mbind result_bind rbind fst snd].
  destruct (select_destination_registry _ _ _ _ _ _ _ _ _ Hsel Hwf)
    as (Hwf1 & Hkeys & Hdest).
  destruct dest as [dest |]; [| eexists; split; [reflexivity | discriminate]].
  destruct (Hdest dest eq_refl) as (d & Hd & Hid).
  destruct (proj2 (Hkeys (sourceID s)) Hsrc) as [src Hsrc'].
  cbn [brokers set_brokers sourceID]. rewrite Hsrc', Hd.
  cbn [deref mbind result_bind rbind].
  destruct (PrimFloat.ltb _ _).
  { eexists. split; [reflexivity |]. intros s' [= <-]. split; assumption. }
  destruct (PrimFloat.ltb _ _).
  { eexists. split; [reflexivity |]. intros s' [= <-]. split; assumption. }
  rewrite Hid.
  assert (Hd2 : is_Some (<[sourceID s := set_StorageFree src
                 (PrimFloat.add (StorageFree src) (PartitionMetaMap_Size (partitionMeta s) p))]>
               h1 !! dest)).
  { destruct (decide (dest = sourceID s)) as [-> | Hne].
    - rewrite lookup_insert_eq. eauto.
    - rewrite lookup_insert_ne by congruence. rewrite Hd. eauto. }
  destruct Hd2 as [d' ->]. cbn [deref mbind result_bind rbind].
  eexists. split; [reflexivity | discriminate].
Qed.

Lemma relocation_loop_total `{Env} `{PseudoShuffle} (fl : Flags)
    (targetLocality : string) (mean : float) (topPartn : list Partition)
    (s : planRelocationsForBrokerParams) (reloCount : Z) :
  (forall bm, Forall (fun a => is_Some (bm !! a)) (BrokerMap_List bm)) ->
  Forall (fun p => Forall (fun a => is_Some (brokers s !! a)) (Replicas p)) topPartn ->
  BrokerMap_wf (brokers s) ->
  is_Some (brokers s !! sourceID s) ->
  exists r, relocation_loop fl targetLocality mean s reloCount topPartn = Ok r.
Proof.
  intros Hlist Hreps. revert s Hreps.
  induction topPartn as [| p rest IH]; intros s Hreps Hwf Hsrc; cbn [relocation_loop];
    [eauto |].
  apply Forall_cons in Hreps as [Hp Hrest].
  destruct (relocation_step_total fl targetLocality mean s reloCount p
              (Hlist _) Hp Hwf Hsrc) as (ctl & Hstep & Hinv).
  pose proof (relocation_step_cases _ _ _ _ _ _ _ Hstep) as Hcases.
  rewrite Hstep. cbn [mbind result_bind rbind].
  destruct ctl as [s1 | s1 n1 | s1]; [| eauto | eauto].
  destruct (Hinv s1 eq_refl) as [Hwf1 Hkeys].
  apply IH; [| exact Hwf1 |].
  - eapply Forall_impl; [exact Hrest |]. intros q Hq.
    eapply Forall_impl; [exact Hq |]. intros a Ha. apply Hkeys. exact Ha.
  - rewrite Hcases. cbn [sourceID set_brokers]. apply Hkeys. exact Hsrc.
Qed.

(** On a registry that holds every broker under its own ID, the source
    among them, and every replica of the source's top partitions,
    [planRelocationsForBroker] returns: no nil pointer is dereferenced. *)
Lemma planRelocationsForBroker_returns `{Env} `{PseudoShuffle} (fl : Flags)
    (params : planRelocationsForBrokerParams) :
  (forall bm, Forall (fun a => is_Some (bm !! a)) (BrokerMap_List bm)) ->
  Forall (fun p => Forall (fun a => is_Some (brokers params !! a)) (Replicas p))
    (LargestPartitions (mappings params) (sourceID params)
       (topPartitionsLimit params) (partitionMeta params)) ->
  BrokerMap_wf (brokers params) ->
  is_Some (brokers params !! sourceID params) ->
  exists n params', planRelocationsForBroker fl params = Ok (n, params').
Proof.
  intros Hlist Hreps Hwf Hsrc. unfold planRelocationsForBroker.
  destruct Hsrc as [src Hsrc]. rewrite Hsrc. cbn [deref mbind result_bind rbind].
  destruct (relocation_loop_total fl (Locality src) (BrokerMap_Mean (brokers params))
              _ params 0 Hlist Hreps Hwf (ex_intro _ src Hsrc)) as [[n params'] Hr].
  eauto.
Qed.

End CommandsProofs.

(** ** Autothrottle *)
Module AutothrottleProofs.
Import Autothrottle.

(** *** brokersFromThrottleList *)

Lemma Split_cons (sep : ascii) (s : string) :
  exists x xs, Split sep s = x :: xs.
Proof.
  destruct s as [| c s]; simpl; [eauto |].
  destruct (Ascii.eqb c sep); [eauto |].
  destruct (Split sep s); eauto.
Qed.

(** [strings.Split(r, ":")[1]] is out of range exactly when [r] has no
    [':']. *)
Lemma Split_second (sep : ascii) (s : string) :
  Split sep s !! 1%nat = None <-> contains sep s = false.
Proof.
  induction s as [| c s IH]; simpl; [tauto |].
  destruct (Ascii.eqb c sep); simpl.
  - destruct (Split_cons sep s) as (x & xs & ->). split; discriminate.
  - destruct (Split sep s) as [| x xs]; simpl in *; exact IH.
Qed.

Lemma throttle_loop_panics (rs : list string) (brokers : list Z) :
  throttle_loop rs brokers = Panic <->
  exists pre r post,
    rs = pre ++ r :: post /\ contains ":" r = false /\ Forall entry_ok pre.
Proof.
  revert brokers. induction rs as [| r rs IH]; intros brokers; cbn [throttle_loop].
  - split; [discriminate |]. intros (pre & r & post & Heq & _).
    destruct pre; discriminate.
  - destruct (Split ":" r !! 1%nat) as [ids |] eqn:Hsplit;
      cbn [deref mbind result_bind rbind].
    + assert (Hc : contains ":" r <> false).
      { intros Hc. apply Split_second in Hc. congruence. }
      destruct (Atoi ids) as [id |] eqn:Hatoi.
      * rewrite IH. split.
        -- intros (pre & r' & post & -> & Hr' & Hpre).
           exists (r :: pre), r', post. split; [reflexivity |]. split; [exact Hr' |].
           constructor; [exists ids, id; auto | exact Hpre].
        -- intros (pre & r' & post & Heq & Hr' & Hpre).
           destruct pre as [| r0 pre]; simpl in Heq; injection Heq as <- ->.
           ++ contradiction.
           ++ exists pre, r', post. apply Forall_cons in Hpre as [_ Hpre]. auto.
      * split; [discriminate |].
        intros (pre & r' & post & Heq & Hr' & Hpre).
        destruct pre as [| r0 pre]; simpl in Heq; injection Heq as <- ->.
        -- contradiction.
        -- apply Forall_cons in Hpre as [(ids' & id' & Hs' & Ha') _]. congruence.
    + split; [| reflexivity]. intros _.
      exists [], r, rs. split; [reflexivity |].
      split; [apply Split_second; exact Hsplit | constructor].
Qed.

(** C9, amended. [brokersFromThrottleList] returns whenever every
    comma-separated entry contains a [':']. It panics (index out of range
    in [strings.Split(r, ":")[1]]) exactly when some entry without [':'] is
    reached, that is when every entry before it has a [':'] followed by an
    integer; the empty string, whose only entry is empty, is such an
    input. *)
Theorem brokersFromThrottleList_panics (l : string) :
  (Forall (fun r => contains ":" r = true) (Split "," l) ->
   exists r, brokersFromThrottleList l = Ok r)
  /\ (brokersFromThrottleList l = Panic <->
      exists pre r post,
        Split "," l = pre ++ r :: post /\ contains ":" r = false
        /\ Forall entry_ok pre)
  /\ brokersFromThrottleList "" = Panic.
Proof.
  unfold brokersFromThrottleList. split; [| split].
  - intros Hall.
    destruct (throttle_loop (Split "," l) []) as [r |] eqn:Hloop; [eauto |].
    apply throttle_loop_panics in Hloop as (pre & r & post & Heq & Hr & _).
    rewrite Heq in Hall. apply Forall_app in Hall as [_ Hall].
    apply Forall_cons in Hall as [Hr' _]. congruence.
  - apply throttle_loop_panics.
  - reflexivity.
Qed.

(** The list of the mock ZooKeeper returns its two brokers; the list
    ["2:1001,1002"] panics at its second entry. *)
Lemma brokersFromThrottleList_panics_witness :
  (exists r, brokersFromThrottleList "2:1001,2:1002" = Ok r)
  /\ brokersFromThrottleList "2:1001,1002" = Panic.
Proof.
  split.
  - destruct (brokersFromThrottleList_panics "2:1001,2:1002") as (Hret & _).
    apply Hret. repeat constructor.
  - destruct (brokersFromThrottleList_panics "2:1001,1002") as (_ & Hpanic & _).
    apply Hpanic.
    exists ["2:1001"], "1002", []. split; [reflexivity |]. split; [reflexivity |].
    constructor; [| constructor]. exists "1001", 1001. split; reflexivity.
Defined.

(** C9 as stated fails: in ["1:x,abc"] the entry "abc" has no [':'], yet
    the function returns, with the error of the entry before it. *)
Lemma brokersFromThrottleList_returns_before_bad_entry :
  "abc" ∈ Split "," "1:x,abc" /\ contains ":" "abc" = false
  /\ brokersFromThrottleList "1:x,abc" = Ok ([], Some "Bad broker ID x").
Proof. split; [| split; reflexivity]. simpl. set_solver. Qed.

(** *** updateReplicationThrottle *)

(** C7: what the code does. Whenever [replicasFromTopicConfigs] reports
    errors, [updateReplicationThrottle] returns [err], the error of
    [km.GetMetrics()], which is nil at that point: the accumulated errors
    are dropped and the caller sees success. *)
Theorem updateReplicationThrottle_drops_errors `{Env} (topics : list string)
    (topicConfigs : gmap string TopicConfig) (brokerMetrics : gmap Z Broker)
    (t : ThrottledReplicas) (errs : list error) :
  fetch_configs topics ∅ = inl topicConfigs ->
  NewKafkaMetrics = None ->
  GetMetrics = inl brokerMetrics ->
  replicasFromTopicConfigs brokerMetrics topicConfigs = Ok (t, errs) ->
  errs <> [] ->
  updateReplicationThrottle topics = Ok None.
Proof.
  intros Hfetch Hnew Hget Hrep Herrs. unfold updateReplicationThrottle.
  rewrite Hfetch, Hnew, Hget, Hrep. cbn [mbind result_bind rbind].
  rewrite bool_decide_eq_true_2 by exact Herrs. reflexivity.
Qed.

(** The leader list names broker 1001 and the metrics know no broker:
    [replicasFromTopicConfigs] reports the missing broker, and
    [updateReplicationThrottle] returns nil. *)
Lemma updateReplicationThrottle_drops_errors_witness :
  replicasFromTopicConfigs (H := Instances.example_throttle_env Instances.example_configs ∅)
    ∅ Instances.example_configs
  = Ok (mkThrottledReplicas [] [],
        ["Broker 1001 from the topic config not found in the broker metrics map"])
  /\ updateReplicationThrottle
       (H := Instances.example_throttle_env Instances.example_configs ∅) ["test_topic"]
     = Ok None.
Proof.
  split; [vm_compute; reflexivity |].
  apply (updateReplicationThrottle_drops_errors
           (H := Instances.example_throttle_env Instances.example_configs ∅)
           ["test_topic"] Instances.example_configs ∅ (mkThrottledReplicas [] [])
           ["Broker 1001 from the topic config not found in the broker metrics map"]).
  - vm_compute. reflexivity.
  - reflexivity.
  - reflexivity.
  - vm_compute. reflexivity.
  - discriminate.
Defined.

(** *** highestLeaderNetTX *)

Lemma highest_fold_nil (l : list Broker) :
  Forall (fun b => PrimFloat.leb (NetTX b) 0%float = true) l ->
  fold_left highest_step l (0%float, None) = (0%float, None).
Proof.
  induction 1 as [| b l Hb _ IH]; cbn [fold_left]; [reflexivity |].
  unfold highest_step at 2. cbn [fst].
  rewrite (GoFloat.leb_zero_not_gt _ Hb). exact IH.
Qed.

(** C10. [highestLeaderNetTX] returns nil when there is no leader or when
    no leader's [NetTX] exceeds 0.00; [updateReplicationThrottle] hands the
    result to [headroom] unchecked, which dereferences it: the call
    panics. *)
Theorem highestLeaderNetTX_nil `{Env} (t : ThrottledReplicas) :
  Leaders t = [] \/ Forall (fun b => PrimFloat.leb (NetTX b) 0%float = true) (Leaders t) ->
  highestLeaderNetTX t = None
  /\ headroom BWLimits (highestLeaderNetTX t) = Panic
  /\ forall topics topicConfigs brokerMetrics,
       fetch_configs topics ∅ = inl topicConfigs ->
       NewKafkaMetrics = None ->
       GetMetrics = inl brokerMetrics ->
       replicasFromTopicConfigs brokerMetrics topicConfigs = Ok (t, []) ->
       updateReplicationThrottle topics = Panic.
Proof.
  intros Hle.
  assert (Hnil : highestLeaderNetTX t = None).
  { unfold highestLeaderNetTX. rewrite highest_fold_nil; [reflexivity |].
    destruct Hle as [-> | Hle]; [constructor | exact Hle]. }
  split; [exact Hnil |]. split; [rewrite Hnil; reflexivity |].
  intros topics topicConfigs brokerMetrics Hfetch Hnew Hget Hrep.
  unfold updateReplicationThrottle.
  rewrite Hfetch, Hnew, Hget, Hrep. cbn [mbind result_bind rbind].
  rewrite bool_decide_eq_false_2 by (intros Hne; apply Hne; reflexivity).
  rewrite Hnil. reflexivity.
Qed.

(** With the leader 1001 idle (NetTX 0), the update of the throttle
    panics. *)
Lemma highestLeaderNetTX_nil_witness :
  updateReplicationThrottle
    (H := Instances.example_throttle_env Instances.example_configs Instances.idle_metrics)
    ["test_topic"] = Panic.
Proof.
  destruct (highestLeaderNetTX_nil
              (H := Instances.example_throttle_env Instances.example_configs
                      Instances.idle_metrics)
              (mkThrottledReplicas [mkBroker 1001 "d2.xlarge" 0%float]
                                   [mkBroker 1005 "d2.xlarge" 10%float]))
    as (_ & _ & Hpanic).
  - right. repeat constructor.
  - apply (Hpanic ["test_topic"] Instances.example_configs Instances.idle_metrics).
    + vm_compute. reflexivity.
    + reflexivity.
    + reflexivity.
    + vm_compute. reflexivity.
Defined.

End AutothrottleProofs.

(** ** More on constraints and candidate selection *)
Module KafkazkExtra.
Import Kafkazk KafkazkProofs.

(** Any selection method other than "count" and "storage" is refused
    before a broker is looked at: the store, the list and the constraints
    stay as they are, even when the list holds nil pointers. *)
Theorem bestCandidate_invalid_method `{PseudoShuffle} (h : gmap Z Broker)
    (b : list Z) (c : constraints) (by_ : string) (p : Z) :
  by_ <> "count" -> by_ <> "storage" ->
  bestCandidate h b c by_ p = Ok (h, b, c, (None, Some errInvalidSelectionMethod)).
Proof.
  intros Hc Hs. unfold bestCandidate, sort_method.
  apply String.eqb_neq in Hc, Hs. rewrite Hc, Hs. reflexivity.
Qed.

Lemma bestCandidate_invalid_method_witness :
  bestCandidate (H := Instances.identity_shuffle) ∅ [7] newConstraints "random" 1
  = Ok (∅, [7], newConstraints, (None, Some errInvalidSelectionMethod)).
Proof.
  apply (bestCandidate_invalid_method (H := Instances.identity_shuffle));
    discriminate.
Defined.

Lemma candidates_loop_first (h : gmap Z Broker) (c : constraints)
    (pre : list (Z * Broker)) (x : Z * Broker) (post : list (Z * Broker))
    (err : option error) :
  Forall (fun y => h !! y.1 = Some y.2 /\ passes c y.2 <> None) pre ->
  h !! x.1 = Some x.2 -> passes c x.2 = None ->
  candidates_loop h c (pre ++ x :: post).*1 err
  = Ok (<[x.1 := set_Used (add c x.2).2 (int_wrap (Used (add c x.2).2 + 1))]> h,
        (add c x.2).1, (Some x.1, None)).
Proof.
  intros HF Hx Hp. revert err.
  induction HF as [| y pre [Hy Hn] _ IH]; intros err; simpl.
  - rewrite Hx. simpl. rewrite Hp. reflexivity.
  - rewrite Hy. simpl. destruct (passes c y.2); [apply IH | congruence].
Qed.

(** On success [bestCandidate] returns the first broker of the sorted list
    that passes the constraints. That broker's [Used] counter goes up by
    one and its [StorageFree] down by the request size; its ID, and its
    locality unless empty, enter the forbidden sets; no other broker
    changes. *)
Theorem bestCandidate_selects_first_passing `{PseudoShuffle} (h : gmap Z Broker)
    (b : list Z) (c : constraints) (by_ : string) (p : Z)
    (sort : list (Z * Broker) -> list (Z * Broker))
    (bl pre post : list (Z * Broker)) (x : Z * Broker) :
  sort_method by_ p = Some sort ->
  resolve h b = Ok bl ->
  sort bl = pre ++ x :: post ->
  Forall (fun y => passes c y.2 <> None) pre ->
  passes c x.2 = None ->
  bestCandidate h b c by_ p
  = Ok (<[x.1 := mkBroker (ID x.2) (Locality x.2) (int_wrap (Used x.2 + 1))
                   (PrimFloat.sub (StorageFree x.2) (requestSize c))
                   (Replace x.2) (New x.2)]> h,
        (sort bl).*1,
        mkConstraints (requestSize c) (add_locality (locality c) x.2)
                      (<[ID x.2 := true]> (id c)),
        (Some x.1, None)).
Proof.
  intros Hsort Hres Hsplit Hpre Hx.
  pose proof (sort_method_perm by_ p sort bl Hsort) as Hperm.
  destruct (resolve_Ok h b bl Hres) as [_ Hlook].
  rewrite <- Hperm, Hsplit in Hlook.
  apply Forall_app in Hlook as [Hl1 Hl2]. apply Forall_cons in Hl2 as [Hlx _].
  unfold bestCandidate. rewrite Hsort, Hres. cbn [mbind result_bind rbind].
  rewrite Hsplit.
  rewrite (candidates_loop_first h c pre x post None); [reflexivity | | exact Hlx | exact Hx].
  apply Forall_forall. intros y Hy. rewrite Forall_forall in Hl1, Hpre. auto.
Qed.

(** Of brokers 1000 (no storage left) and 1001, a request of 10 goes to
    1001. *)
Lemma bestCandidate_selects_first_passing_witness :
  bestCandidate (H := Instances.identity_shuffle)
    (<[1 := mkBroker 1000 "a" 0 5%float false false]>
       (<[2 := mkBroker 1001 "b" 0 50%float false false]> ∅))
    [1; 2] (mkConstraints 10%float ∅ ∅) "count" 0
  = Ok (<[2 := mkBroker 1001 "b" 1 40%float false false]>
          (<[1 := mkBroker 1000 "a" 0 5%float false false]>
             (<[2 := mkBroker 1001 "b" 0 50%float false false]> ∅)),
        [1; 2],
        mkConstraints 10%float {["b" := true]} {[1001 := true]},
        (Some 2, None)).
Proof.
  etransitivity.
  - apply (bestCandidate_selects_first_passing (H := Instances.identity_shuffle)
             _ _ _ "count" 0 (fun l => l)
             [(1, mkBroker 1000 "a" 0 5%float false false);
              (2, mkBroker 1001 "b" 0 50%float false false)]
             [(1, mkBroker 1000 "a" 0 5%float false false)] []
             (2, mkBroker 1001 "b" 0 50%float false false)).
    + reflexivity.
    + reflexivity.
    + reflexivity.
    + repeat constructor. discriminate.
    + reflexivity.
  - vm_compute. reflexivity.
Defined.

(** *** No broker is selected twice *)

Lemma passes_None (c : constraints) (b : Broker) :
  passes c b = None <->
  storage_exhausted c b = false /\ locality_forbidden c b = false
  /\ id_forbidden c b = false.
Proof.
  unfold passes.
  destruct (storage_exhausted c b), (locality_forbidden c b), (id_forbidden c b);
    intuition congruence.
Qed.

Lemma bestCandidate_found `{PseudoShuffle} (h : gmap Z Broker) (b : list Z)
    (c : constraints) (by_ : string) (p : Z) (h1 : gmap Z Broker) (l1 : list Z)
    (c1 : constraints) (d : Z) (e : option error) :
  bestCandidate h b c by_ p = Ok (h1, l1, c1, (Some d, e)) ->
  exists x, h !! d = Some x /\ passes c x = None /\ c1 = (add c x).1
    /\ h1 = <[d := set_Used (add c x).2 (int_wrap (Used (add c x).2 + 1))]> h.
Proof.
  unfold bestCandidate. destruct (sort_method by_ p) as [sort |]; [| discriminate].
  destruct (resolve h b) as [bl |]; cbn [mbind result_bind rbind]; [| discriminate].
  destruct (candidates_loop h c _ None) as [[[h' c'] [cand err]] |] eqn:Hloop;
    cbn [mbind result_bind rbind fst snd]; [| discriminate].
  intros [= <- _ <- -> _].
  apply candidates_loop_found in Hloop as (x & _ & Hx & Hp & Hc & Hh).
  exists x. auto.
Qed.

Lemma locality_forbidden_add (c : constraints) (b b' : Broker) :
  Locality b <> "" -> Locality b' = Locality b ->
  locality_forbidden (add c b).1 b' = true.
Proof.
  intros Hne Heq. unfold locality_forbidden, map_get, add, add_locality. cbn [fst locality].
  apply String.eqb_neq in Hne. rewrite Hne, Heq, lookup_insert_eq. reflexivity.
Qed.

(** Two selections in a row, the second on the store and the constraints
    that the first left, never return the same broker: the two brokers have
    different IDs, and different localities unless the first has none. *)
Theorem bestCandidate_never_repeats `{PseudoShuffle} (h : gmap Z Broker)
    (b : list Z) (c : constraints) (by_ : string) (p : Z)
    (h1 : gmap Z Broker) (l1 : list Z) (c1 : constraints) (d1 : Z) (e1 : option error)
    (b2 : list Z) (by2 : string) (p2 : Z)
    (h2 : gmap Z Broker) (l2 : list Z) (c2 : constraints) (d2 : Z) (e2 : option error) :
  bestCandidate h b c by_ p = Ok (h1, l1, c1, (Some d1, e1)) ->
  bestCandidate h1 b2 c1 by2 p2 = Ok (h2, l2, c2, (Some d2, e2)) ->
  exists x1 x2, h1 !! d1 = Some x1 /\ h1 !! d2 = Some x2
    /\ ID x1 <> ID x2
    /\ (Locality x1 = "" \/ Locality x1 <> Locality x2).
Proof.
  intros H1 H2.
  apply bestCandidate_found in H1 as (x & Hx & _ & -> & ->).
  apply bestCandidate_found in H2 as (x2 & Hx2 & Hp2 & _ & _).
  apply passes_None in Hp2 as (_ & Hl & Hi).
  eexists. exists x2. split; [apply lookup_insert_eq |]. split; [exact Hx2 |].
  cbn [add snd set_Used set_StorageFree ID Locality]. split.
  - intros Heq. rewrite id_forbidden_add, Heq in Hi.
    rewrite bool_decide_eq_true_2 in Hi by reflexivity. discriminate.
  - destruct (String.eqb_spec (Locality x) "") as [He | Hne]; [left; exact He | right].
    intros Heq. rewrite (locality_forbidden_add c x x2 Hne) in Hl by congruence.
    discriminate.
Qed.

(** Two picks among brokers 1000 (rack a) and 1001 (rack b). *)
Lemma bestCandidate_never_repeats_witness :
  let h1 : gmap Z Broker :=
    <[1 := mkBroker 1000 "a" 1 0%float false false]>
      (<[1 := mkBroker 1000 "a" 0 0%float false false]>
         (<[2 := mkBroker 1001 "b" 0 0%float false false]> ∅)) in
  exists x1 x2, h1 !! 1 = Some x1 /\ h1 !! 2 = Some x2
    /\ ID x1 <> ID x2 /\ (Locality x1 = "" \/ Locality x1 <> Locality x2).
Proof.
  cbv zeta.
  eapply (bestCandidate_never_repeats (H := Instances.identity_shuffle)
            (<[1 := mkBroker 1000 "a" 0 0%float false false]>
               (<[2 := mkBroker 1001 "b" 0 0%float false false]> ∅))
            [1; 2] newConstraints "count" 0 _ [1; 2]
            (mkConstraints 0%float {["a" := true]} {[1000 := true]}) 1 None
            [1; 2] "count" 0).
  - vm_compute. reflexivity.
  - vm_compute. reflexivity.
Defined.

(** *** Constraints only tighten *)

Lemma map_get_insert_true `{Countable K} (m : gmap K bool) (k k' : K) :
  map_get m k = true -> map_get (<[k' := true]> m) k = true.
Proof.
  unfold map_get. intros Hk. destruct (decide (k = k')) as [-> | Hne].
  - rewrite lookup_insert_eq. reflexivity.
  - rewrite lookup_insert_ne by congruence. exact Hk.
Qed.

Lemma add_locality_keeps (l : gmap string bool) (b : Broker) (k : string) :
  map_get l k = true -> map_get (add_locality l b) k = true.
Proof.
  intros Hk. unfold add_locality. destruct (String.eqb (Locality b) ""); [exact Hk |].
  apply map_get_insert_true. exact Hk.
Qed.

(** A broker that the constraints reject stays rejected when the
    constraints absorb another broker, by [add] or by a step of
    [mergeConstraints]. *)
Theorem passes_rejection_is_kept (c : constraints) (b x : Broker) :
  passes c b <> None ->
  passes (add c x).1 b <> None /\ passes (merge_step c x) b <> None.
Proof.
  intros Hrej.
  assert (Hgen : forall c', requestSize c' = requestSize c ->
            (forall k, map_get (locality c) k = true -> map_get (locality c') k = true) ->
            (forall k, map_get (id c) k = true -> map_get (id c') k = true) ->
            passes c' b <> None).
  { intros c' Hr Hl Hi Hnone. apply Hrej.
    apply passes_None in Hnone as (Hs' & Hl' & Hi'). apply passes_None.
    unfold storage_exhausted, locality_forbidden, id_forbidden in *.
    rewrite Hr in Hs'. split; [exact Hs' |]. split.
    - destruct (map_get (locality c) (Locality b)) eqn:E; [| reflexivity].
      rewrite (Hl _ E) in Hl'. discriminate.
    - destruct (map_get (id c) (ID b)) eqn:E; [| reflexivity].
      rewrite (Hi _ E) in Hi'. discriminate. }
  split.
  - apply Hgen; cbn [add fst requestSize locality id]; [reflexivity | |].
    + intros k. apply add_locality_keeps.
    + intros k. apply map_get_insert_true.
  - unfold merge_step. destruct (Replace x); [exact Hrej |].
    apply Hgen; cbn [requestSize locality id]; [reflexivity | |].
    + intros k. apply add_locality_keeps.
    + intros k. apply map_get_insert_true.
Qed.

Lemma passes_rejection_is_kept_witness :
  passes (add (mkConstraints 0%float {["a" := true]} ∅)
              (mkBroker 1001 "b" 0 0%float false false)).1
         (mkBroker 1000 "a" 0 0%float false false) <> None.
Proof.
  apply (passes_rejection_is_kept (mkConstraints 0%float {["a" := true]} ∅)
           (mkBroker 1000 "a" 0 0%float false false)
           (mkBroker 1001 "b" 0 0%float false false)).
  vm_compute. discriminate.
Defined.

(** *** What mergeConstraints forbids *)

Lemma merge_fold_id (bl : list Broker) (c : constraints) (k : Z) :
  map_get (id (fold_left merge_step bl c)) k = true <->
  map_get (id c) k = true \/ exists b, b ∈ bl /\ Replace b = false /\ ID b = k.
Proof.
  revert c. induction bl as [| x bl IH]; intros c; cbn [fold_left].
  - split; [auto |]. intros [Hk | (b & Hb & _)]; [exact Hk | inversion Hb].
  - rewrite IH. unfold merge_step at 1. split.
    + intros [Hk | (b & Hb & Hr & Hid)].
      * destruct (Replace x) eqn:Hx; [left; exact Hk |].
        cbn [id] in Hk. unfold map_get in Hk.
        destruct (decide (k = ID x)) as [-> | Hne].
        -- right. exists x. split; [left |]. auto.
        -- rewrite lookup_insert_ne in Hk by congruence. left. exact Hk.
      * right. exists b. split; [right; exact Hb |]. auto.
    + intros [Hk | (b & Hb & Hr & Hid)].
      * left. destruct (Replace x); [exact Hk |]. cbn [id].
        apply map_get_insert_true. exact Hk.
      * apply elem_of_cons in Hb as [-> | Hb].
        -- left. rewrite Hr. cbn [id]. unfold map_get.
           rewrite Hid, lookup_insert_eq. reflexivity.
        -- right. exists b. auto.
Qed.

Lemma merge_fold_locality (bl : list Broker) (c : constraints) (k : string) :
  map_get (locality (fold_left merge_step bl c)) k = true <->
  map_get (locality c) k = true
  \/ exists b, b ∈ bl /\ Replace b = false /\ Locality b = k /\ k <> "".
Proof.
  revert c. induction bl as [| x bl IH]; intros c; cbn [fold_left].
  - split; [auto |]. intros [Hk | (b & Hb & _)]; [exact Hk | inversion Hb].
  - rewrite IH. unfold merge_step at 1. split.
    + intros [Hk | (b & Hb & Hrest)].
      * destruct (Replace x) eqn:Hx; [left; exact Hk |].
        cbn [locality] in Hk. unfold add_locality in Hk.
        destruct (String.eqb_spec (Locality x) "") as [He | Hne]; [left; exact Hk |].
        unfold map_get in Hk.
        destruct (decide (k = Locality x)) as [-> | Hk'].
        -- right. exists x. split; [left |]. auto.
        -- rewrite lookup_insert_ne in Hk by congruence. left. exact Hk.
      * right. exists b. split; [right; exact Hb | exact Hrest].
    + intros [Hk | (b & Hb & Hr & Hl & Hne)].
      * left. destruct (Replace x); [exact Hk |]. cbn [locality].
        apply add_locality_keeps. exact Hk.
      * apply elem_of_cons in Hb as [-> | Hb].
        -- left. rewrite Hr. cbn [locality]. unfold add_locality.
           rewrite Hl. apply String.eqb_neq in Hne. rewrite Hne.
           unfold map_get. rewrite lookup_insert_eq. reflexivity.
        -- right. exists b. auto.
Qed.

Lemma mergeConstraints_forbids_aux (bl : list Broker) :
  (forall k, map_get (id (mergeConstraints bl)) k = true <->
     exists b, b ∈ bl /\ Replace b = false /\ ID b = k)
  /\ (forall k, map_get (locality (mergeConstraints bl)) k = true <->
        exists b, b ∈ bl /\ Replace b = false /\ Locality b = k /\ k <> "").
Proof.
  unfold mergeConstraints. split.
  - intros k. rewrite merge_fold_id. split; [| auto].
    intros [Hk | Hex]; [discriminate | exact Hex].
  - intros k. rewrite merge_fold_locality. split; [| auto].
    intros [Hk | Hex]; [discriminate | exact Hex].
Qed.

(** [mergeConstraints] forbids exactly the IDs of the brokers of the list
    that are not marked for replacement, and exactly their non-empty
    localities; it asks for no storage. *)
Theorem mergeConstraints_forbids (bl : list Broker) :
  requestSize (mergeConstraints bl) = 0%float
  /\ (forall k, map_get (id (mergeConstraints bl)) k = true <->
        exists b, b ∈ bl /\ Replace b = false /\ ID b = k)
  /\ (forall k, map_get (locality (mergeConstraints bl)) k = true <->
        exists b, b ∈ bl /\ Replace b = false /\ Locality b = k /\ k <> "").
Proof.
  split; [| exact (mergeConstraints_forbids_aux bl)].
  unfold mergeConstraints. rewrite CommandsProofs.merge_fold_requestSize. reflexivity.
Qed.

End KafkazkExtra.

(** ** The order of float64 values *)
Module GoFloatOrder.

Ltac sf_cases :=
  repeat match goal with s : bool |- _ => destruct s end;
  simpl; try discriminate; try reflexivity; try tauto.

Ltac sf_compare ex ey ez mx my mz :=
  change (Pos.compare_cont Eq) with Pos.compare;
  destruct (Z.compare_spec ex ey), (Z.compare_spec ey ez), (Z.compare_spec ex ez);
  try discriminate; try reflexivity; try lia; subst;
  destruct (Pos.compare_spec mx my), (Pos.compare_spec my mz), (Pos.compare_spec mx mz);
  simpl; try discriminate; try reflexivity; try lia.

Lemma SFcompare_swap (x y : spec_float) (c : comparison) :
  SFcompare x y = Some c -> SFcompare y x = Some (CompOpp c).
Proof.
  destruct x as [sx | sx | | sx mx ex], y as [sy | sy | | sy my ey]; sf_cases;
    try (intros [= <-]; reflexivity).
  all: change (Pos.compare_cont Eq) with Pos.compare.
  all: destruct (Z.compare_spec ex ey), (Z.compare_spec ey ex); try lia;
    try (intros [= <-]; reflexivity); subst.
  all: destruct (Pos.compare_spec mx my), (Pos.compare_spec my mx); try lia;
    simpl; intros [= <-]; reflexivity.
Qed.

Lemma SFcompare_total (x y : spec_float) :
  x <> S754_nan -> y <> S754_nan -> exists c, SFcompare x y = Some c.
Proof. destruct x, y; simpl; intros; try congruence; eauto. Qed.

Lemma SFcompare_Lt_trans (x y z : spec_float) :
  SFcompare x y = Some Lt -> SFcompare y z = Some Lt -> SFcompare x z = Some Lt.
Proof.
  destruct x as [sx | sx | | sx mx ex], y as [sy | sy | | sy my ey],
    z as [sz | sz | | sz mz ez]; sf_cases.
  all: sf_compare ex ey ez mx my mz.
Qed.

Lemma SFcompare_Eq_l (x y z : spec_float) (c : comparison) :
  SFcompare x y = Some Eq -> SFcompare y z = Some c -> SFcompare x z = Some c.
Proof.
  destruct x as [sx | sx | | sx mx ex], y as [sy | sy | | sy my ey],
    z as [sz | sz | | sz mz ez]; sf_cases.
  all: change (Pos.compare_cont Eq) with Pos.compare.
  all: destruct (Z.compare_spec ex ey); try discriminate; subst.
  all: destruct (Pos.compare_spec mx my); try discriminate; subst; simpl; auto.
Qed.

Lemma SFcompare_Eq_r (x y z : spec_float) (c : comparison) :
  SFcompare x y = Some c -> SFcompare y z = Some Eq -> SFcompare x z = Some c.
Proof.
  intros Hxy Hyz. apply SFcompare_swap in Hxy, Hyz. simpl in Hyz.
  pose proof (SFcompare_Eq_l z y x _ Hyz Hxy) as Hzx.
  apply SFcompare_swap in Hzx. rewrite CompOpp_involutive in Hzx. exact Hzx.
Qed.

Lemma ltb_Lt (x y : float) :
  PrimFloat.ltb x y = true <-> SFcompare (Prim2SF x) (Prim2SF y) = Some Lt.
Proof.
  pose proof (FloatAxioms.ltb_spec x y) as Hspec. unfold SFltb in Hspec.
  destruct (SFcompare (Prim2SF x) (Prim2SF y)) as [[| |] |]; split; congruence.
Qed.

Lemma eqb_Eq (x y : float) :
  PrimFloat.eqb x y = true <-> SFcompare (Prim2SF x) (Prim2SF y) = Some Eq.
Proof.
  pose proof (FloatAxioms.eqb_spec x y) as Hspec. unfold SFeqb in Hspec.
  destruct (SFcompare (Prim2SF x) (Prim2SF y)) as [[| |] |]; split; congruence.
Qed.

(** [x == x] holds of every value but NaN. *)
Lemma not_nan (x : float) : PrimFloat.eqb x x = true -> Prim2SF x <> S754_nan.
Proof. rewrite eqb_Eq. intros Hc Hn. rewrite Hn in Hc. discriminate. Qed.

Lemma ltb_asym (x y : float) :
  PrimFloat.ltb x y = true -> PrimFloat.ltb y x = false.
Proof.
  intros Hxy. apply ltb_Lt, SFcompare_swap in Hxy.
  destruct (PrimFloat.ltb y x) eqn:Hyx; [| reflexivity].
  apply ltb_Lt in Hyx. rewrite Hyx in Hxy. discriminate.
Qed.

Lemma ltb_irrefl (x : float) : PrimFloat.ltb x x = false.
Proof.
  destruct (PrimFloat.ltb x x) eqn:Hx; [| reflexivity].
  rewrite (ltb_asym x x Hx) in Hx. discriminate.
Qed.

Lemma ltb_trans (x y z : float) :
  PrimFloat.ltb x y = true -> PrimFloat.ltb y z = true -> PrimFloat.ltb x z = true.
Proof. rewrite !ltb_Lt. apply SFcompare_Lt_trans. Qed.

(** Two values, neither NaN, neither below the other, compare equal. *)
Lemma incomparable_Eq (x y : float) :
  PrimFloat.eqb x x = true -> PrimFloat.eqb y y = true ->
  PrimFloat.ltb x y = false -> PrimFloat.ltb y x = false ->
  SFcompare (Prim2SF x) (Prim2SF y) = Some Eq.
Proof.
  intros Hx Hy Hxy Hyx.
  destruct (SFcompare_total _ _ (not_nan x Hx) (not_nan y Hy)) as [[| |] Hc].
  - exact Hc.
  - apply ltb_Lt in Hc. congruence.
  - apply SFcompare_swap in Hc. apply ltb_Lt in Hc. congruence.
Qed.

End GoFloatOrder.

(** ** The order of offload targets and the helper steps *)
Module StepsProofs.
Import Kafkazk Commands Steps.

(** *** offloadTargetsBySize *)

Lemma Less_Ok (o : offloadTargetsBySize) (i j : nat) (a : bool) :
  Less o i j = Ok a <->
  exists ti bi tj bj,
    t o !! i = Some ti /\ bm o !! ti = Some bi
    /\ t o !! j = Some tj /\ bm o !! tj = Some bj
    /\ a = if PrimFloat.ltb (StorageFree bi) (StorageFree bj) then true
           else if PrimFloat.ltb (StorageFree bj) (StorageFree bi) then false
           else Z.ltb ti tj.
Proof.
  unfold Less. split.
  - destruct (t o !! i) as [ti |]; cbn [deref mbind result_bind rbind]; [| discriminate].
    destruct (bm o !! ti) as [bi |] eqn:Hbi; cbn [deref mbind result_bind rbind];
      [| discriminate].
    destruct (t o !! j) as [tj |]; cbn [deref mbind result_bind rbind]; [| discriminate].
    destruct (bm o !! tj) as [bj |] eqn:Hbj; cbn [deref mbind result_bind rbind];
      [| discriminate].
    intros Ha. exists ti, bi, tj, bj.
    split; [reflexivity |]. split; [exact Hbi |]. split; [reflexivity |].
    split; [exact Hbj |].
    destruct (PrimFloat.ltb (StorageFree bi) (StorageFree bj));
      [| destruct (PrimFloat.ltb (StorageFree bj) (StorageFree bi))]; congruence.
  - intros (ti & bi & tj & bj & -> & Hbi & -> & Hbj & ->).
    cbn [deref mbind result_bind rbind]. rewrite Hbi.
    cbn [deref mbind result_bind rbind]. rewrite Hbj.
    cbn [deref mbind result_bind rbind].
    destruct (PrimFloat.ltb (StorageFree bi) (StorageFree bj));
      [| destruct (PrimFloat.ltb (StorageFree bj) (StorageFree bi))]; reflexivity.
Qed.

(** [Less] orders the offload targets strictly: no target is below
    itself, two targets are never each below the other, and of two targets
    with different IDs one is below the other. When no broker's free
    storage is NaN the order is transitive as well, so that the sorted
    order of distinct IDs is unique. *)
Theorem Less_strict_total_order (o : offloadTargetsBySize) (i j k : nat) :
  (forall a, Less o i i = Ok a -> a = false)
  /\ (Less o i j = Ok true -> Less o j i = Ok false)
  /\ (Less o i j = Ok false -> t o !! i <> t o !! j -> Less o j i = Ok true)
  /\ (map_Forall (fun _ b => PrimFloat.eqb (StorageFree b) (StorageFree b) = true) (bm o) ->
      Less o i j = Ok true -> Less o j k = Ok true -> Less o i k = Ok true).
Proof.
  split; [| split; [| split]].
  - intros a Ha. apply Less_Ok in Ha as (ti & bi & tj & bj & Hi & Hbi & Hj & Hbj & ->).
    assert (tj = ti) as -> by congruence. assert (bj = bi) as -> by congruence.
    rewrite GoFloatOrder.ltb_irrefl. apply Z.ltb_irrefl.
  - intros Ha. apply Less_Ok in Ha as (ti & bi & tj & bj & Hi & Hbi & Hj & Hbj & Ha).
    apply Less_Ok. exists tj, bj, ti, bi. repeat split; try assumption.
    destruct (PrimFloat.ltb (StorageFree bi) (StorageFree bj)) eqn:H1.
    + rewrite (GoFloatOrder.ltb_asym _ _ H1). reflexivity.
    + destruct (PrimFloat.ltb (StorageFree bj) (StorageFree bi)) eqn:H2; [discriminate |].
      symmetry in Ha. apply Z.ltb_lt in Ha. symmetry. apply Z.ltb_ge. lia.
  - intros Ha Hne. apply Less_Ok in Ha as (ti & bi & tj & bj & Hi & Hbi & Hj & Hbj & Ha).
    apply Less_Ok. exists tj, bj, ti, bi. repeat split; try assumption.
    destruct (PrimFloat.ltb (StorageFree bi) (StorageFree bj)) eqn:H1; [discriminate |].
    destruct (PrimFloat.ltb (StorageFree bj) (StorageFree bi)) eqn:H2; [reflexivity |].
    symmetry in Ha. apply Z.ltb_ge in Ha. symmetry. apply Z.ltb_lt.
    assert (ti <> tj) by congruence. lia.
  - intros Hnan H1 H2.
    apply Less_Ok in H1 as (ti & bi & tj & bj & Hi & Hbi & Hj & Hbj & H1).
    apply Less_Ok in H2 as (tj' & bj' & tk & bk & Hj' & Hbj' & Hk & Hbk & H2).
    assert (tj' = tj) as -> by congruence. assert (bj' = bj) as -> by congruence.
    apply Less_Ok. exists ti, bi, tk, bk. repeat split; try assumption.
    pose proof (Hnan _ _ Hbi) as Ni. pose proof (Hnan _ _ Hbj) as Nj.
    pose proof (Hnan _ _ Hbk) as Nk. cbn beta in Ni, Nj, Nk.
    destruct (PrimFloat.ltb (StorageFree bi) (StorageFree bj)) eqn:Lij.
    + destruct (PrimFloat.ltb (StorageFree bj) (StorageFree bk)) eqn:Ljk.
      * rewrite (GoFloatOrder.ltb_trans _ _ _ Lij Ljk). reflexivity.
      * destruct (PrimFloat.ltb (StorageFree bk) (StorageFree bj)) eqn:Lkj; [discriminate |].
        pose proof (GoFloatOrder.incomparable_Eq _ _ Nj Nk Ljk Lkj) as Ejk.
        apply GoFloatOrder.ltb_Lt in Lij.
        pose proof (GoFloatOrder.SFcompare_Eq_r _ _ _ _ Lij Ejk) as Lik.
        apply GoFloatOrder.ltb_Lt in Lik. rewrite Lik. reflexivity.
    + destruct (PrimFloat.ltb (StorageFree bj) (StorageFree bi)) eqn:Lji; [discriminate |].
      pose proof (GoFloatOrder.incomparable_Eq _ _ Ni Nj Lij Lji) as Eij.
      destruct (PrimFloat.ltb (StorageFree bj) (StorageFree bk)) eqn:Ljk.
      * apply GoFloatOrder.ltb_Lt in Ljk.
        pose proof (GoFloatOrder.SFcompare_Eq_l _ _ _ _ Eij Ljk) as Lik.
        apply GoFloatOrder.ltb_Lt in Lik. rewrite Lik. reflexivity.
      * destruct (PrimFloat.ltb (StorageFree bk) (StorageFree bj)) eqn:Lkj; [discriminate |].
        pose proof (GoFloatOrder.incomparable_Eq _ _ Nj Nk Ljk Lkj) as Ejk.
        pose proof (GoFloatOrder.SFcompare_Eq_l _ _ _ _ Eij Ejk) as Eik.
        assert (Lik : PrimFloat.ltb (StorageFree bi) (StorageFree bk) = false).
        { destruct (PrimFloat.ltb (StorageFree bi) (StorageFree bk)) eqn:E; [| reflexivity].
          apply GoFloatOrder.ltb_Lt in E. congruence. }
        assert (Lki : PrimFloat.ltb (StorageFree bk) (StorageFree bi) = false).
        { destruct (PrimFloat.ltb (StorageFree bk) (StorageFree bi)) eqn:E; [| reflexivity].
          apply GoFloatOrder.ltb_Lt in E. apply GoFloatOrder.SFcompare_swap in Eik.
          simpl in Eik. congruence. }
        rewrite Lik, Lki.
        symmetry in H1, H2. apply Z.ltb_lt in H1, H2. symmetry. apply Z.ltb_lt. lia.
Qed.

(** Targets 1003 (20 free), 1001 and 1002 (100 free each): 1003 is below
    1001, 1001 below 1002, and so 1003 below 1002. *)
Lemma Less_strict_total_order_witness :
  Less (mkOffloadTargets [1003; 1001; 1002] Instances.example_brokers) 0 2 = Ok true.
Proof.
  destruct (Less_strict_total_order
              (mkOffloadTargets [1003; 1001; 1002] Instances.example_brokers) 0 1 2)
    as (_ & _ & _ & Htrans).
  apply Htrans.
  - cbn [bm]. compute_done.
  - vm_compute. reflexivity.
  - vm_compute. reflexivity.
Defined.

(** *** phasedReassignment *)

Lemma notInReplicaSet_spec (id : Z) (rs : list Z) :
  notInReplicaSet id rs = true <-> id ∉ rs.
Proof.
  induction rs as [| r rs IH]; cbn [notInReplicaSet].
  - split; [intros _ Hin; inversion Hin | reflexivity].
  - destruct (Z.eqb_spec r id) as [-> | Hne].
    + split; [discriminate | intros Hn; exfalso; apply Hn; left].
    + rewrite IH. rewrite not_elem_of_cons. split; [intros; split; congruence | tauto].
Qed.

Lemma phase_partition_step `{PartitionMapEnv} (pm1 : PartitionMap) (topic : string)
    (q r : Partition) :
  phase_partition topic (ReplicaSets pm1 topic) q = Ok r ->
  phased pm1 q r /\ (Topic q = topic -> has_old_leader pm1 r).
Proof.
  unfold phase_partition.
  destruct (String.eqb_spec (Topic q) topic) as [<- | Hne].
  - change (default [] (ReplicaSets pm1 (Topic q) !! PartitionN q) !! 0%nat)
      with (old_leader pm1 q).
    destruct (old_leader pm1 q) as [l |] eqn:Hl; cbn [deref mbind result_bind rbind];
      [| discriminate].
    destruct (notInReplicaSet l (Replicas q)) eqn:Hn; intros [= <-].
    + apply notInReplicaSet_spec in Hn. split.
      * repeat split. right. exists l. auto.
      * intros _. exists l. split; [exact Hl | left].
    + split; [repeat split; left; reflexivity |].
      intros _. exists l. split; [exact Hl |].
      destruct (decide (l ∈ Replicas q)) as [Hin | Hnin]; [exact Hin |].
      apply notInReplicaSet_spec in Hnin. congruence.
  - intros [= <-]. split; [repeat split; left; reflexivity | congruence].
Qed.

Lemma old_leader_same `{PartitionMapEnv} (pm1 : PartitionMap) (q r : Partition) :
  Topic r = Topic q -> PartitionN r = PartitionN q ->
  old_leader pm1 r = old_leader pm1 q.
Proof. unfold old_leader. intros -> ->. reflexivity. Qed.

Lemma phase_step_keeps_leader `{PartitionMapEnv} (pm1 : PartitionMap) (q r : Partition) :
  phased pm1 q r -> has_old_leader pm1 q -> has_old_leader pm1 r.
Proof.
  intros (Ht & Hn & Hr) (l & Hl & Hin). exists l.
  rewrite (old_leader_same pm1 q r Ht Hn). split; [exact Hl |].
  destruct Hr as [-> | (l' & _ & _ & ->)]; [exact Hin | right; exact Hin].
Qed.

Lemma phased_step `{PartitionMapEnv} (pm1 : PartitionMap) (p q r : Partition) :
  phased pm1 p q -> phased pm1 q r -> phased pm1 p r.
Proof.
  intros (Ht & Hn & Hq) (Ht' & Hn' & Hr).
  split; [congruence |]. split; [congruence |].
  rewrite (old_leader_same pm1 p q Ht Hn) in Hr.
  destruct Hq as [Hq | (l & Hl & Hnin & Hq)].
  - rewrite Hq in Hr. destruct Hr as [Hr | Hr]; [left; congruence | right; exact Hr].
  - destruct Hr as [Hr | (l' & Hl' & Hnin' & Hr)].
    + right. exists l. rewrite Hr. auto.
    + exfalso. apply Hnin'. rewrite Hq. assert (l' = l) as -> by congruence. left.
Qed.

Lemma phase_partitions_steps `{PartitionMapEnv} (pm1 : PartitionMap) (topic : string)
    (parts parts' : list Partition) :
  phase_partitions topic (ReplicaSets pm1 topic) parts = Ok parts' ->
  Forall2 (fun q r => phased pm1 q r /\ (Topic q = topic -> has_old_leader pm1 r))
          parts parts'.
Proof.
  revert parts'. induction parts as [| q parts IH]; intros parts'; cbn [phase_partitions].
  - intros [= <-]. constructor.
  - destruct (phase_partition topic _ q) as [r |] eqn:Hq;
      cbn [mbind result_bind rbind]; [| discriminate].
    destruct (phase_partitions topic _ parts) as [rest |];
      cbn [mbind result_bind rbind]; [| discriminate].
    intros [= <-]. constructor; [apply phase_partition_step; exact Hq | apply IH; reflexivity].
Qed.

Lemma phase_topics_phased `{PartitionMapEnv} (pm1 : PartitionMap) (topics : list string)
    (orig parts parts' : list Partition) :
  Forall2 (phased pm1) orig parts ->
  phase_topics pm1 topics parts = Ok parts' ->
  Forall2 (phased pm1) orig parts'
  /\ Forall2 (fun q r => (has_old_leader pm1 q \/ Topic q ∈ topics)
                         -> has_old_leader pm1 r) parts parts'.
Proof.
  revert parts. induction topics as [| topic rest IH]; intros parts Horig; cbn [phase_topics].
  - intros [= <-]. split; [exact Horig |].
    apply Forall2_same_length_lookup_2; [reflexivity |].
    intros i q r Hq Hr [Hl | Hin]; [congruence | inversion Hin].
  - destruct (phase_partitions topic _ parts) as [mid |] eqn:Hmid;
      cbn [mbind result_bind rbind]; [| discriminate].
    intros Hrest. apply phase_partitions_steps in Hmid.
    assert (Hom : Forall2 (phased pm1) orig mid).
    { apply Forall2_same_length_lookup_2.
      - rewrite (Forall2_length _ _ _ Horig). exact (Forall2_length _ _ _ Hmid).
      - intros i p r Hp Hr.
        destruct (Forall2_lookup_l _ _ _ _ _ Horig Hp) as (q & Hq & Hpq).
        destruct (Forall2_lookup_l _ _ _ _ _ Hmid Hq) as (r' & Hr' & Hqr & _).
        assert (r' = r) as -> by congruence.
        eapply phased_step; eassumption. }
    destruct (IH mid Hom Hrest) as [Hfin Hlead]. split; [exact Hfin |].
    apply Forall2_same_length_lookup_2.
    + rewrite (Forall2_length _ _ _ Hmid). exact (Forall2_length _ _ _ Hlead).
    + intros i q r Hq Hr Hcov.
      destruct (Forall2_lookup_l _ _ _ _ _ Hmid Hq) as (m & Hm & Hqm & Htop).
      destruct (Forall2_lookup_l _ _ _ _ _ Hlead Hm) as (r' & Hr' & Hmr).
      assert (r' = r) as -> by congruence.
      apply Hmr.
      destruct Hcov as [Hl | Hin].
      * left. eapply phase_step_keeps_leader; eassumption.
      * apply elem_of_cons in Hin as [Heq | Hin].
        -- left. apply Htop. exact Heq.
        -- right. destruct Hqm as (Ht & _). rewrite Ht. exact Hin.
Qed.

Lemma phased_refl `{PartitionMapEnv} (pm1 : PartitionMap) (parts : list Partition) :
  Forall2 (phased pm1) parts parts.
Proof.
  apply Forall2_same_length_lookup_2; [reflexivity |].
  intros i p q Hp Hq. assert (q = p) as -> by congruence.
  repeat split. left. reflexivity.
Qed.

(** [phasedReassignment] returns the copy it took of the output map: the
    version is the copy's, and the partitions are those of the output map,
    in order, each with its topic and number. A replica set stays as it is
    or gets the partition's old leader prepended, and the latter only when
    the old leader is not in it, so a replica set without duplicates stays
    without. For every topic that [Topics] lists, the old leader is in the
    replica set returned. *)
Theorem phasedReassignment_prepends_old_leaders `{PartitionMapEnv}
    (pm1 pm2 pm' : PartitionMap) :
  phasedReassignment pm1 pm2 = Ok pm' ->
  Version pm' = Version (Copy pm2)
  /\ Forall2 (fun p p' =>
                phased pm1 p p'
                /\ (Topic p ∈ Topics pm2 -> has_old_leader pm1 p')
                /\ (NoDup (Replicas p) -> NoDup (Replicas p')))
             (Partitions pm2) (Partitions pm').
Proof.
  unfold phasedReassignment. cbv zeta. rewrite Copy_Partitions.
  destruct (phase_topics pm1 (Topics pm2) (Partitions pm2)) as [parts |] eqn:Hparts;
    cbn [mbind result_bind rbind]; [| discriminate].
  intros [= <-]. split; [reflexivity |]. cbn [Partitions].
  destruct (phase_topics_phased pm1 _ _ _ _ (phased_refl pm1 _) Hparts) as [Hph Hlead].
  apply Forall2_same_length_lookup_2; [exact (Forall2_length _ _ _ Hph) |].
  intros i p p' Hp Hp'.
  destruct (Forall2_lookup_l _ _ _ _ _ Hph Hp) as (q & Hq & Hpq).
  assert (q = p') as -> by congruence.
  destruct (Forall2_lookup_l _ _ _ _ _ Hlead Hp) as (q & Hq' & Hl).
  assert (q = p') as -> by congruence.
  split; [exact Hpq |]. split; [intros Hin; apply Hl; right; exact Hin |].
  intros Hnd. destruct Hpq as (_ & _ & [-> | (l & _ & Hnin & ->)]); [exact Hnd |].
  apply NoDup_cons. split; assumption.
Qed.

(** Moving T/0 from [1001, 1002] to [1004, 1002] goes through
    [1001, 1004, 1002]; T/1, whose old leader 1002 stays a replica, keeps
    [1003, 1002]. *)
Lemma phasedReassignment_prepends_old_leaders_witness :
  phasedReassignment (H := StepsInstances.example_pm_env)
    StepsInstances.current_map StepsInstances.target_map
  = Ok (mkPartitionMap 1 [mkPartition "T" 0 [1001; 1004; 1002];
                          mkPartition "T" 1 [1003; 1002]])
  /\ Forall2 (fun p p' => NoDup (Replicas p) -> NoDup (Replicas p'))
       (Partitions StepsInstances.target_map)
       [mkPartition "T" 0 [1001; 1004; 1002]; mkPartition "T" 1 [1003; 1002]].
Proof.
  split; [vm_compute; reflexivity |].
  destruct (phasedReassignment_prepends_old_leaders (H := StepsInstances.example_pm_env)
              StepsInstances.current_map StepsInstances.target_map
              (mkPartitionMap 1 [mkPartition "T" 0 [1001; 1004; 1002];
                                 mkPartition "T" 1 [1003; 1002]]))
    as [_ Hall].
  - vm_compute. reflexivity.
  - eapply Forall2_impl; [exact Hall |]. intros p p' (_ & _ & Hnd). exact Hnd.
Defined.

(** *** When phasedReassignment panics *)

Lemma phase_partitions_total `{PartitionMapEnv} (pm1 : PartitionMap) (topic : string)
    (parts : list Partition) :
  Forall (fun q => Topic q = topic -> is_Some (old_leader pm1 q)) parts ->
  exists parts', phase_partitions topic (ReplicaSets pm1 topic) parts = Ok parts'.
Proof.
  induction 1 as [| q parts Hq _ [rest IH]]; cbn [phase_partitions]; [eauto |].
  unfold phase_partition.
  destruct (String.eqb_spec (Topic q) topic) as [Heq | Hne].
  - destruct (Hq Heq) as [l Hl]. unfold old_leader in Hl. rewrite Heq in Hl.
    rewrite Hl. cbn [deref mbind result_bind rbind].
    destruct (notInReplicaSet l (Replicas q)); cbn [mbind result_bind rbind];
      rewrite IH; cbn [mbind result_bind rbind]; eauto.
  - cbn [mbind result_bind rbind]. rewrite IH. cbn [mbind result_bind rbind]. eauto.
Qed.

Lemma phase_topics_total `{PartitionMapEnv} (pm1 : PartitionMap) (topics : list string)
    (parts : list Partition) :
  Forall (fun q => Topic q ∈ topics -> is_Some (old_leader pm1 q)) parts ->
  exists parts', phase_topics pm1 topics parts = Ok parts'.
Proof.
  revert parts. induction topics as [| topic rest IH]; intros parts Hall;
    cbn [phase_topics]; [eauto |].
  destruct (phase_partitions_total pm1 topic parts) as [mid Hmid].
  { eapply Forall_impl; [exact Hall |]. intros q Hq Heq. apply Hq. rewrite Heq. left. }
  rewrite Hmid. cbn [mbind result_bind rbind]. apply IH.
  apply phase_partitions_steps in Hmid.
  apply Forall_forall. intros m Hm Hin.
  apply list_elem_of_lookup in Hm as [i Hm].
  destruct (Forall2_lookup_r _ _ _ _ _ Hmid Hm) as (q & Hq & (Ht & Hn & _) & _).
  rewrite (old_leader_same pm1 q m Ht Hn).
  rewrite Forall_forall in Hall. apply (Hall q).
  - apply list_elem_of_lookup. eauto.
  - rewrite <- Ht. right. exact Hin.
Qed.

(** [phasedReassignment] returns exactly when the input map records a
    leader for every partition of the output map whose topic [Topics]
    lists; a partition that the input map lacks, or holds without
    replicas, makes [rs[partn.Partition][0]] panic. *)
Theorem phasedReassignment_returns_iff `{PartitionMapEnv} (pm1 pm2 : PartitionMap) :
  (exists pm', phasedReassignment pm1 pm2 = Ok pm') <->
  Forall (fun p => Topic p ∈ Topics pm2 -> is_Some (old_leader pm1 p)) (Partitions pm2).
Proof.
  split.
  - intros [pm' Hpm]. unfold phasedReassignment in Hpm.
    cbv zeta in Hpm. rewrite Copy_Partitions in Hpm.
    destruct (phase_topics pm1 (Topics pm2) (Partitions pm2)) as [parts |] eqn:Hparts;
      cbn [mbind result_bind rbind] in Hpm; [| discriminate].
    destruct (phase_topics_phased pm1 _ _ _ _ (phased_refl pm1 _) Hparts) as [Hph Hlead].
    apply Forall_forall. intros p Hp Hin.
    apply list_elem_of_lookup in Hp as [i Hp].
    destruct (Forall2_lookup_l _ _ _ _ _ Hph Hp) as (q & Hq & (Ht & Hn & _)).
    destruct (Forall2_lookup_l _ _ _ _ _ Hlead Hp) as (q' & Hq' & Hl).
    assert (q' = q) as -> by congruence.
    destruct (Hl (or_intror Hin)) as (l & Hl' & _).
    rewrite <- (old_leader_same pm1 p q Ht Hn). eauto.
  - intros Hall. unfold phasedReassignment. cbv zeta. rewrite Copy_Partitions.
    destruct (phase_topics_total pm1 _ _ Hall) as [parts ->].
    cbn [mbind result_bind rbind]. eauto.
Qed.

(** *** printChangesActions *)

Lemma send_if_bound (cond : bool) (m : string) (buf : list string) (n : nat) :
  (length buf <= n)%nat -> (n < 5)%nat ->
  exists buf', send_if cond 5 m buf = Some buf'
               /\ (length buf' <= if cond then S n else n)%nat.
Proof.
  intros Hlen Hn. unfold send_if, chan_send. destruct cond.
  - assert (Hlt : (length buf <? 5)%nat = true) by (apply Nat.ltb_lt; lia).
    rewrite Hlt. eexists. split; [reflexivity |]. rewrite length_app. simpl. lia.
  - eexists. split; [reflexivity | exact Hlen].
Qed.

(** The three messages about the change of the broker count exclude one
    another, so at most four of the six sends take place: no send on the
    channel of five slots blocks, and [printChangesActions] prints its
    summary, the header and between one and four lines. *)
Theorem printChangesActions_never_blocks `{Env} (r : Z) (fr ol : bool)
    (bs : BrokerStatus.t) :
  exists summary header lines,
    printChangesActions r fr ol bs = Some (summary :: header :: lines)
    /\ (1 <= length lines <= 4)%nat.
Proof.
  unfold printChangesActions.
  set (change := int_wrap (BrokerStatus.New bs - BrokerStatus.Replace bs)).
  set (c1 := Z.leb 0 change && Z.ltb 0 (BrokerStatus.Replace bs)).
  set (c2 := Z.ltb 0 change && Z.eqb (BrokerStatus.Replace bs) 0).
  set (c3 := Z.ltb change 0).
  assert (Hexcl : ((if c1 then 1 else 0) + (if c2 then 1 else 0)
                   + (if c3 then 1 else 0) <= 1)%nat).
  { subst c1 c2 c3.
    destruct (Z.leb_spec 0 change), (Z.ltb_spec 0 (BrokerStatus.Replace bs)),
      (Z.ltb_spec 0 change), (Z.eqb_spec (BrokerStatus.Replace bs) 0),
      (Z.ltb_spec change 0); simpl; lia. }
  destruct (send_if_bound c1 ("Rebuild topic with " ++ fmt_d (BrokerStatus.Replace bs)
              ++ " broker(s) marked for replacement")%string [] 0)
    as (a1 & -> & H1); [simpl; lia | lia |].
  cbn [mbind option_bind].
  destruct (send_if_bound c2 ("Expanding/rebalancing topic with "
              ++ fmt_d (BrokerStatus.New bs)
              ++ " additional broker(s) (this is a no-op unless --force-rebuild is specified)")%string
              a1 (if c1 then 1 else 0)%nat)
    as (a2 & -> & H2); [destruct c1; lia | destruct c1; lia |].
  cbn [mbind option_bind].
  destruct (send_if_bound c3 ("Shrinking topic by " ++ fmt_d (int_wrap (- change))
              ++ " broker(s)")%string a2
              ((if c1 then 1 else 0) + (if c2 then 1 else 0))%nat)
    as (a3 & -> & H3); [destruct c1, c2; simpl in *; lia | destruct c1, c2; simpl in *; lia |].
  cbn [mbind option_bind].
  assert (H3' : (length a3 <= 1)%nat) by (destruct c1, c2, c3; simpl in *; lia).
  destruct (send_if_bound fr "Force rebuilding map" a3 1) as (a4 & -> & H4); [lia | lia |].
  cbn [mbind option_bind].
  destruct (send_if_bound (Z.ltb 0 r) ("Setting replication factor to " ++ fmt_d r)%string
              a4 2) as (a5 & -> & H5); [destruct fr; lia | lia |].
  cbn [mbind option_bind].
  destruct (send_if_bound ol "Optimizing leader/follower ratios" a5 3)
    as (a6 & -> & H6); [destruct (Z.ltb 0 r); lia | lia |].
  cbn [mbind option_bind].
  do 3 eexists. split; [reflexivity |].
  assert (H6' : (length a6 <= 4)%nat) by (destruct ol; lia).
  destruct a6 as [| a rest]; [simpl; lia |].
  rewrite length_fmap. simpl in *. lia.
Qed.

End StepsProofs.

(** ** More on the relocation plan and its application *)
Module PlanProofs.
Import Kafkazk Commands Steps.

(** What [add] records for a partition is what [isPlanned] returns for it:
    the pairs recorded before, then the new pair; for every other
    partition [isPlanned] answers as before. *)
Theorem isPlanned_add (r : gmap string (gmap Z (list (Z * Z)))) (p q : Partition)
    (ids : Z * Z) :
  isPlanned (relocationPlan_add r p ids) p
  = Some (default [] (isPlanned r p) ++ [ids])
  /\ (Topic q <> Topic p \/ PartitionN q <> PartitionN p ->
      isPlanned (relocationPlan_add r p ids) q = isPlanned r q).
Proof.
  unfold isPlanned, relocationPlan_add. split.
  - rewrite lookup_insert_eq, lookup_insert_eq.
    destruct (r !! Topic p) as [inner |] eqn:Hr.
    + rewrite Hr. reflexivity.
    + rewrite lookup_insert_eq. reflexivity.
  - intros Hne. destruct (decide (Topic q = Topic p)) as [Heq | Htop].
    + destruct Hne as [? | Hn]; [contradiction |].
      rewrite Heq, lookup_insert_eq, lookup_insert_ne by congruence.
      destruct (r !! Topic p) as [inner |] eqn:Hr.
      * rewrite Hr. reflexivity.
      * rewrite lookup_insert_eq. reflexivity.
    + rewrite lookup_insert_ne by congruence.
      destruct (r !! Topic p) as [inner |] eqn:Hr; [reflexivity |].
      rewrite lookup_insert_ne by congruence. reflexivity.
Qed.

Lemma isPlanned_add_witness :
  isPlanned (relocationPlan_add {["T" := {[0 := [(1001, 1004)]]}]}
               (mkPartition "T" 0 []) (1003, 1005)) (mkPartition "T" 1 [])
  = isPlanned {["T" := {[0 := [(1001, 1004)]]}]} (mkPartition "T" 1 []).
Proof.
  apply (isPlanned_add {["T" := {[0 := [(1001, 1004)]]}]}
           (mkPartition "T" 0 []) (mkPartition "T" 1 []) (1003, 1005)).
  right. discriminate.
Defined.

(** *** Which destination a replica takes *)




(** *** Replica sets stay free of duplicates *)





End PlanProofs.

(** ** More on the rebalance steps *)
Module RebalanceProofs.
Import Kafkazk Commands Steps KafkazkProofs CommandsProofs.

(** *** validateBrokersForRebalance *)

(** When [validateBrokersForRebalance] returns, the brokers it returns are
    those that [Update] left, no broker is missing or marked for
    replacement, the list of offload targets is not empty, and the last
    lines printed list these targets. With no offload target the command
    does not return: it exits. *)
Theorem validateBrokersForRebalance_returns_targets `{Env} (Config_brokers : list Z)
    (st stg tol : float) (brokers : gmap Z Broker) (bm : BrokerMetaMap)
    (brokers' : gmap Z Broker) (targets : list Z) :
  io_outcome (validateBrokersForRebalance Config_brokers st stg tol brokers bm)
  = Returns (brokers', targets) ->
  targets <> []
  /\ brokers' = (BrokerMap_Update brokers Config_brokers bm).1.1
  /\ BrokerStatus.Missing (BrokerMap_Update brokers Config_brokers bm).1.2 <= 0
  /\ BrokerStatus.OldMissing (BrokerMap_Update brokers Config_brokers bm).1.2 <= 0
  /\ BrokerStatus.Replace (BrokerMap_Update brokers Config_brokers bm).1.2 <= 0
  /\ exists printed,
       io_stdout (validateBrokersForRebalance Config_brokers st stg tol brokers bm)
       = printed ++ ((fun id => indent ++ fmt_d id ++ nl)%string <$> targets).
Proof.
  unfold validateBrokersForRebalance.
  destruct (BrokerMap_Update brokers Config_brokers bm) as [[b1 c] msgs]. cbn [fst snd].
  unfold mbind, io_mbind, mret, io_mret, Print, os_Exit, when.
  destruct (ensureBrokerMetrics b1 bm) as [o [[] | code]];
    [| destruct (BrokerStatus_Changes c); simpl; discriminate].
  destruct (Z.ltb_spec 0 (BrokerStatus.Missing c));
    [destruct (BrokerStatus_Changes c); simpl; discriminate |].
  destruct (Z.ltb_spec 0 (BrokerStatus.OldMissing c));
    [destruct (BrokerStatus_Changes c); simpl; discriminate |].
  destruct (Z.ltb_spec 0 (BrokerStatus.Replace c));
    [destruct (BrokerStatus_Changes c); simpl; discriminate |].
  cbn [orb].
  match goal with
  | |- context [let '(_, _) := ?sel in _] => destruct sel as [selector offload]
  end.
  destruct (decide (offload = [])) as [-> | Hne].
  - rewrite bool_decide_eq_true_2 by reflexivity.
    destruct (BrokerStatus_Changes c), (Z.ltb 0 (BrokerStatus.New c)); simpl; discriminate.
  - rewrite bool_decide_eq_false_2 by exact Hne.
    destruct (BrokerStatus_Changes c), (Z.ltb 0 (BrokerStatus.New c)); simpl;
      intros [= <- <-]; (split; [exact Hne |]); (split; [reflexivity |]);
      repeat (split; [assumption |]);
      match goal with
      | |- exists printed, ?L = printed ++ ?T => change (T `suffix_of` L)
      end;
      rewrite app_nil_r;
      repeat first [apply suffix_app_r | apply suffix_cons_r]; reflexivity.
Qed.

(** With every broker listed and no threshold, the three brokers of the
    example are the offload targets, printed last. *)
Lemma validateBrokersForRebalance_returns_targets_witness :
  [1001; 1002; 1003] <> []
  /\ exists printed,
       io_stdout (validateBrokersForRebalance (H := Instances.example_env)
                    [1001; 1002; 1003] 0%float 0%float 0.5%float
                    Instances.example_brokers tt)
       = printed ++ ["  1001" ++ nl; "  1002" ++ nl; "  1003" ++ nl]%string.
Proof.
  destruct (validateBrokersForRebalance_returns_targets (H := Instances.example_env)
              [1001; 1002; 1003] 0%float 0%float 0.5%float
              Instances.example_brokers tt Instances.example_brokers
              [1001; 1002; 1003]) as (Hne & _ & _ & _ & _ & Hout).
  - vm_compute. reflexivity.
  - split; [exact Hne | exact Hout].
Defined.

(** *** Where planRelocationsForBroker places a partition *)

Lemma same_registry_refl (h : gmap Z Broker) : same_registry h h.
Proof. intros k. reflexivity. Qed.

Lemma same_registry_trans (h1 h2 h3 : gmap Z Broker) :
  same_registry h1 h2 -> same_registry h2 h3 -> same_registry h1 h3.
Proof. intros H12 H23 k. rewrite H12. apply H23. Qed.

Lemma same_registry_insert (h : gmap Z Broker) (k : Z) (b b' : Broker) :
  h !! k = Some b -> broker_identity b' = broker_identity b ->
  same_registry (<[k := b']> h) h.
Proof.
  intros Hk Hid k'. destruct (decide (k' = k)) as [-> | Hne].
  - rewrite lookup_insert_eq, Hk. simpl. rewrite Hid. reflexivity.
  - rewrite lookup_insert_ne by congruence. reflexivity.
Qed.

Lemma same_registry_lookup (h' h : gmap Z Broker) (k : Z) (b : Broker) :
  same_registry h' h -> h !! k = Some b ->
  exists b', h' !! k = Some b' /\ broker_identity b' = broker_identity b.
Proof.
  intros Hsame Hk. specialize (Hsame k). rewrite Hk in Hsame.
  destruct (h' !! k) as [b' |]; [| discriminate].
  exists b'. split; [reflexivity |]. simpl in Hsame. congruence.
Qed.

Lemma same_registry_sym (h' h : gmap Z Broker) :
  same_registry h' h -> same_registry h h'.
Proof. intros Hsame k. symmetry. apply Hsame. Qed.

Lemma placement_ok_transfer (scoped : bool) (source : Z) (tl : string)
    (offload : gset Z) (h' h : gmap Z Broker) (p : Partition) (d : Broker) :
  same_registry h' h -> placement_ok scoped source tl offload h' p d ->
  placement_ok scoped source tl offload h p d.
Proof.
  intros Hsame ((k & b & Hk & Hid) & Hoff & Hrule).
  split; [| split; [exact Hoff |]].
  - destruct (same_registry_lookup h h' k b (same_registry_sym _ _ Hsame) Hk)
      as (b0 & Hb0 & Hid0).
    exists k, b0. split; [exact Hb0 | congruence].
  - destruct scoped; [exact Hrule |].
    intros id rb Hin Hne Hrb Hrep.
    destruct (same_registry_lookup h' h id rb Hsame Hrb) as (rb' & Hrb' & Hid').
    unfold broker_identity in Hid'. injection Hid' as Hi Hl Hr _.
    rewrite <- Hi, <- Hl. apply (Hrule id rb' Hin Hne Hrb'). congruence.
Qed.

Lemma add_offload_fold_locality (ids : list Z) (c : constraints) :
  locality (fold_left add_target ids c) = locality c.
Proof.
  revert c. induction ids as [| i ids IH]; intros c; cbn [fold_left]; [reflexivity |].
  rewrite IH. reflexivity.
Qed.

Lemma add_offload_fold_id_only (ids : list Z) (c : constraints) (k : Z) :
  map_get (id (fold_left add_target ids c)) k = true ->
  k ∈ ids \/ map_get (id c) k = true.
Proof.
  revert c. induction ids as [| i ids IH]; intros c; cbn [fold_left]; [auto |].
  intros Hk. destruct (IH _ Hk) as [Hin | Hc]; [left; right; exact Hin |].
  unfold add_target, add, map_get in Hc. cbn [fst id ID] in Hc.
  destruct (decide (k = i)) as [-> | Hne]; [left; left |].
  rewrite lookup_insert_ne in Hc by congruence. right. exact Hc.
Qed.

(** The destination chosen for a partition meets the placement rules. *)
Lemma select_destination_placement `{PseudoShuffle} (scoped : bool) (source : Z)
    (targetLocality : string) (offload : gset Z) (h : gmap Z Broker)
    (brokerList : list Z) (p : Partition) (h1 : gmap Z Broker) (dest : Z) :
  select_destination scoped source targetLocality offload h brokerList p
  = Ok (h1, Some dest) ->
  exists d, h !! dest = Some d
            /\ placement_ok scoped source targetLocality offload h p d.
Proof.
  unfold select_destination, SortByStorage. intros Hsel.
  destruct (resolve h brokerList) as [bl |] eqn:Hres; simpl in Hsel; [| discriminate].
  destruct (resolve_Ok h brokerList bl Hres) as [_ Hlook].
  rewrite <- (sort_by_perm brokersByStorage_Less bl) in Hlook.
  destruct scoped.
  - destruct (List.find _ _) as [x |] eqn:Hfind; simpl in Hsel; [| discriminate].
    injection Hsel as <- <-.
    apply find_some in Hfind as [Hin Hok].
    apply list_elem_of_In in Hin. rewrite Forall_forall in Hlook.
    pose proof (Hlook x Hin) as Hx.
    unfold scoped_candidate in Hok.
    apply andb_true_iff in Hok as [Hok Hoff]. apply andb_true_iff in Hok as [Hloc Hsrc].
    apply String.eqb_eq in Hloc. apply negb_true_iff, Z.eqb_neq in Hsrc.
    apply negb_true_iff, bool_decide_eq_false in Hoff.
    exists x.2. split; [exact Hx |].
    split; [exists x.1, x.2; auto |]. split; [exact Hoff |]. split; assumption.
  - destruct (resolve h (List.filter _ (Replicas p))) as [replicaSet |] eqn:Hrs;
      simpl in Hsel; [| discriminate].
    set (c := add_offload_targets (mergeConstraints replicaSet.*2) offload) in *.
    unfold bestCandidate in Hsel. simpl in Hsel.
    destruct (resolve h (sort_by brokersByStorage_Less bl).*1) as [bl' |];
      simpl in Hsel; [| discriminate].
    destruct (candidates_loop h c _ None) as [[[h' c'] [cand err]] |] eqn:Hloop;
      simpl in Hsel; [| discriminate].
    injection Hsel as <- ->.
    apply candidates_loop_found in Hloop as (b & _ & Hb & Hpass & _ & _).
    exists b. split; [exact Hb |].
    split; [exists dest, b; auto |].
    apply KafkazkExtra.passes_None in Hpass as (_ & Hloc & Hid).
    destruct (add_offload_targets_spec (mergeConstraints replicaSet.*2) offload)
      as [_ Hoff]. fold c in Hoff.
    split.
    + intros Hin. unfold id_forbidden in Hid. rewrite (Hoff _ Hin) in Hid. discriminate.
    + intros rid rb Hin Hne Hrb Hrep.
      destruct (resolve_Ok _ _ _ Hrs) as [Hfst Hall].
      assert (Hmem : rb ∈ replicaSet.*2).
      { assert (Hrid : rid ∈ replicaSet.*1).
        { rewrite Hfst. apply list_elem_of_In, filter_In. split.
          - apply list_elem_of_In. exact Hin.
          - apply negb_true_iff, Z.eqb_neq. exact Hne. }
        apply list_elem_of_fmap in Hrid as (x & -> & Hx).
        rewrite Forall_forall in Hall. pose proof (Hall x Hx) as Hx'.
        apply list_elem_of_fmap. exists x. split; [congruence | exact Hx]. }
      destruct (KafkazkExtra.mergeConstraints_forbids_aux replicaSet.*2) as (Hmid & Hmloc).
      split.
      * intros Heq. unfold id_forbidden in Hid.
        assert (Ht : map_get (id c) (ID b) = true).
        { unfold c, add_offload_targets.
          apply (proj2 (add_offload_fold _ _)). right.
          apply Hmid. exists rb. auto. }
        congruence.
      * intros Hrack Heq. unfold locality_forbidden in Hloc.
        assert (Ht : map_get (locality c) (Locality b) = true).
        { unfold c, add_offload_targets. rewrite add_offload_fold_locality.
          apply Hmloc. exists rb. split; [exact Hmem |]. split; [exact Hrep |].
          split; [congruence |]. rewrite Heq. exact Hrack. }
        congruence.
Qed.

Lemma placement_ok_identity (scoped : bool) (source : Z) (tl : string)
    (offload : gset Z) (h : gmap Z Broker) (p : Partition) (d d' : Broker) :
  broker_identity d' = broker_identity d ->
  placement_ok scoped source tl offload h p d ->
  placement_ok scoped source tl offload h p d'.
Proof.
  intros Hid ((k & b & Hk & Hb) & Hoff & Hrule).
  pose proof Hid as Hid'. unfold broker_identity in Hid'.
  injection Hid' as Hi Hl _ _.
  split; [exists k, b; split; [exact Hk | congruence] |].
  rewrite Hi, Hl. split; assumption.
Qed.

Lemma set_Used_identity (b : Broker) (u : Z) :
  broker_identity (set_Used b u) = broker_identity b.
Proof. destruct b. reflexivity. Qed.

Lemma set_StorageFree_identity (b : Broker) (f : float) :
  broker_identity (set_StorageFree b f) = broker_identity b.
Proof. destruct b. reflexivity. Qed.

(** One iteration of the loop: what it leaves of the parameters, and where
    it places the partition when it records a move. *)
Lemma relocation_step_placement `{Env} `{PseudoShuffle} (fl : Flags)
    (targetLocality : string) (mean : float)
    (s : planRelocationsForBrokerParams) (reloCount : Z) (p : Partition)
    (ctl : loop_ctl) :
  relocation_step fl targetLocality mean s reloCount p = Ok ctl ->
  match ctl with
  | Continue s' | Return s' =>
      s' = set_brokers s (brokers s') /\ same_registry (brokers s') (brokers s)
  | Break s' n =>
      n = int_wrap (reloCount + 1)
      /\ same_registry (brokers s') (brokers s)
      /\ sourceID s' = sourceID s /\ partitionMeta s' = partitionMeta s
      /\ pass s' = pass s /\ topPartitionsLimit s' = topPartitionsLimit s
      /\ offloadTargetsMap s' = offloadTargetsMap s
      /\ mappings s' = Mappings_Remove (mappings s) (sourceID s) p
      /\ exists d,
           plan s' = relocationPlan_add (plan s) p (sourceID s, ID d)
           /\ placement_ok (localityScoped fl) (sourceID s) targetLocality
                (offloadTargetsMap s) (brokers s) p d
  end.
Proof.
  unfold relocation_step.
  destruct (select_destination _ _ _ _ _ _ _) as [[h1 dest] |] eqn:Hsel;
    cbn [mbind result_bind rbind fst snd]; [| discriminate].
  pose proof (select_destination_spec _ _ _ _ _ _ _ _ _ Hsel) as Hspec.
  destruct dest as [dest |].
  - destruct Hspec as (d0 & Hd0 & _ & Hh1).
    destruct (select_destination_placement _ _ _ _ _ _ _ _ _ Hsel)
      as (d0' & Hd0' & Hplace).
    assert (d0' = d0) as -> by congruence. clear Hd0'.
    assert (Hsame : same_registry h1 (brokers s)).
    { destruct Hh1 as [-> | (u & ->)]; [apply same_registry_refl |].
      apply (same_registry_insert _ _ d0); [exact Hd0 | apply set_Used_identity]. }
    destruct (brokers (set_brokers s h1) !! sourceID s) as [src |] eqn:Hsrc;
      cbn [deref mbind result_bind rbind]; [| discriminate].
    destruct (brokers (set_brokers s h1) !! dest) as [d |] eqn:Hd;
      cbn [deref mbind result_bind rbind]; [| discriminate].
    cbn [brokers set_brokers] in Hsrc, Hd.
    destruct (PrimFloat.ltb _ _); [intros [= <-]; split; [reflexivity | exact Hsame] |].
    destruct (PrimFloat.ltb _ _); [intros [= <-]; split; [reflexivity | exact Hsame] |].
    destruct (_ !! ID d) as [d' |] eqn:Hd'; cbn [deref mbind result_bind rbind];
      [| discriminate].
    intros [= <-]. cbn [brokers sourceID partitionMeta pass topPartitionsLimit
                          offloadTargetsMap mappings plan set_brokers].
    split; [reflexivity |]. split.
    { eapply same_registry_trans; [| exact Hsame].
      eapply same_registry_trans.
      - apply (same_registry_insert _ _ d'); [exact Hd' | apply set_StorageFree_identity].
      - apply (same_registry_insert _ _ src); [exact Hsrc | apply set_StorageFree_identity]. }
    repeat (split; [reflexivity |]).
    exists d. split; [reflexivity |].
    apply (placement_ok_identity _ _ _ _ _ _ d0); [| exact Hplace].
    pose proof (Hsame dest) as Hk. rewrite Hd, Hd0 in Hk. simpl in Hk. congruence.
  - subst h1. intros [= <-]. split; [reflexivity | apply same_registry_refl].
Qed.

Lemma relocation_loop_placement `{Env} `{PseudoShuffle} (fl : Flags)
    (targetLocality : string) (mean : float) (topPartn : list Partition)
    (s : planRelocationsForBrokerParams) (reloCount n : Z)
    (s' : planRelocationsForBrokerParams) :
  relocation_loop fl targetLocality mean s reloCount topPartn = Ok (n, s') ->
  same_registry (brokers s') (brokers s)
  /\ sourceID s' = sourceID s /\ partitionMeta s' = partitionMeta s
  /\ pass s' = pass s /\ topPartitionsLimit s' = topPartitionsLimit s
  /\ offloadTargetsMap s' = offloadTargetsMap s
  /\ ((n = reloCount /\ plan s' = plan s /\ mappings s' = mappings s)
      \/ (n = int_wrap (reloCount + 1)
          /\ exists p d,
               p ∈ topPartn
               /\ mappings s' = Mappings_Remove (mappings s) (sourceID s) p
               /\ plan s' = relocationPlan_add (plan s) p (sourceID s, ID d)
               /\ placement_ok (localityScoped fl) (sourceID s) targetLocality
                    (offloadTargetsMap s) (brokers s) p d)).
Proof.
  revert s. induction topPartn as [| p rest IH]; intros s; cbn [relocation_loop].
  - intros [= <- <-]. split; [apply same_registry_refl |].
    repeat (split; [reflexivity |]). left. repeat split.
  - destruct (relocation_step fl targetLocality mean s reloCount p) as [ctl |] eqn:Hstep;
      cbn [mbind result_bind rbind]; [| discriminate].
    apply relocation_step_placement in Hstep.
    destruct ctl as [s1 | s1 n1 | s1].
    + destruct Hstep as [Hs1 Hsame]. intros Hloop.
      destruct (IH _ Hloop) as (Hsame' & Hsrc & Hmeta & Hpass & Hlim & Hoff & Hcases).
      rewrite Hs1 in Hsrc, Hmeta, Hpass, Hlim, Hoff, Hcases.
      cbn [sourceID partitionMeta pass topPartitionsLimit offloadTargetsMap
           plan mappings brokers set_brokers] in *.
      split; [exact (same_registry_trans _ _ _ Hsame' Hsame) |].
      repeat (split; [assumption |]).
      destruct Hcases as [Hnone | (-> & q & d & Hq & Hmap & Hplan & Hplace)];
        [left; exact Hnone | right].
      split; [reflexivity |]. exists q, d. split; [right; exact Hq |].
      repeat (split; [assumption |]).
      exact (placement_ok_transfer _ _ _ _ _ _ _ _ Hsame Hplace).
    + destruct Hstep
        as (-> & Hsame & Hsrc & Hmeta & Hpass & Hlim & Hoff & Hmap & d & Hplan & Hplace).
      intros [= <- <-].
      repeat (split; [assumption |]). right.
      split; [reflexivity |]. exists p, d. split; [left |].
      repeat (split; [assumption |]). exact Hplace.
    + intros [= <- <-]. destruct Hstep as [Hs1 Hsame].
      split; [exact Hsame |]. rewrite Hs1.
      repeat (split; [reflexivity |]). left. repeat split.
Qed.

Lemma planRelocationsForBroker_placement `{Env} `{PseudoShuffle} (fl : Flags)
    (params : planRelocationsForBrokerParams) (src : Broker) (n : Z)
    (params' : planRelocationsForBrokerParams) :
  brokers params !! sourceID params = Some src ->
  planRelocationsForBroker fl params = Ok (n, params') ->
  same_registry (brokers params') (brokers params)
  /\ sourceID params' = sourceID params /\ partitionMeta params' = partitionMeta params
  /\ pass params' = pass params /\ topPartitionsLimit params' = topPartitionsLimit params
  /\ offloadTargetsMap params' = offloadTargetsMap params
  /\ ((n = 0 /\ plan params' = plan params /\ mappings params' = mappings params)
      \/ (n = 1
          /\ exists p d,
               p ∈ LargestPartitions (mappings params) (sourceID params)
                     (topPartitionsLimit params) (partitionMeta params)
               /\ mappings params' = Mappings_Remove (mappings params) (sourceID params) p
               /\ plan params' = relocationPlan_add (plan params) p (sourceID params, ID d)
               /\ placement_ok (localityScoped fl) (sourceID params) (Locality src)
                    (offloadTargetsMap params) (brokers params) p d)).
Proof.
  unfold planRelocationsForBroker. intros ->.
  cbn [deref mbind result_bind rbind].
  intros Hloop. apply relocation_loop_placement in Hloop. exact Hloop.
Qed.

(** A move recorded by [planRelocationsForBroker] leads to a broker of the
    registry that is no offload target; when the source is an offload
    target, as it is for every call the rebalance makes, or when the move
    is scoped to the locality, the destination is not the source. *)
Theorem planRelocationsForBroker_destination `{Env} `{PseudoShuffle} (fl : Flags)
    (params : planRelocationsForBrokerParams) (n : Z)
    (params' : planRelocationsForBrokerParams) :
  planRelocationsForBroker fl params = Ok (n, params') ->
  n <> 0 ->
  exists p d,
    plan params' = relocationPlan_add (plan params) p (sourceID params, ID d)
    /\ (exists k b, brokers params !! k = Some b /\ ID b = ID d)
    /\ (ID d ∉ offloadTargetsMap params)
    /\ (localityScoped fl = true \/ sourceID params ∈ offloadTargetsMap params ->
        ID d <> sourceID params).
Proof.
  intros Hrun Hn.
  destruct (brokers params !! sourceID params) as [src |] eqn:Hsrc;
    [| unfold planRelocationsForBroker in Hrun; rewrite Hsrc in Hrun; discriminate].
  destruct (planRelocationsForBroker_placement _ _ _ _ _ Hsrc Hrun)
    as (_ & _ & _ & _ & _ & _ & [(-> & _) | (_ & p & d & _ & _ & Hplan & Hreg & Hoff & Hrule)]);
    [contradiction |].
  exists p, d. split; [exact Hplan |]. split; [| split; [exact Hoff |]].
  - destruct Hreg as (k & b & Hk & Hid). exists k, b. split; [exact Hk |].
    unfold broker_identity in Hid. congruence.
  - intros [Hscoped | Hin].
    + rewrite Hscoped in Hrule. apply Hrule.
    + intros Heq. apply Hoff. rewrite Heq. exact Hin.
Qed.

(** The move of T/0 off broker 1003, the offload target of the example,
    leads to another broker. *)
Lemma planRelocationsForBroker_destination_witness :
  exists p d,
    plan (Instances.planned Instances.example_params)
    = relocationPlan_add ∅ p (1003, ID d)
    /\ (ID d ∉ ({[1003]} : gset Z))
    /\ ID d <> 1003.
Proof.
  destruct (planRelocationsForBroker_destination (H := Instances.example_env)
              (H0 := Instances.identity_shuffle) Instances.example_flags
              Instances.example_params 1 (Instances.planned Instances.example_params))
    as (p & d & Hplan & _ & Hoff & Hsrc).
  - vm_compute. reflexivity.
  - lia.
  - exists p, d. split; [exact Hplan |]. split; [exact Hoff |].
    apply Hsrc. right. apply elem_of_singleton. reflexivity.
Defined.

(** The rack rule of a recorded move, on a broker map that holds every
    broker under its own ID. The pair recorded for the partition names a
    destination ID; the broker that the map holds under that ID is, when
    the move is scoped to the locality, on the source's rack. Otherwise the
    destination is none of the partition's other replicas and the broker is
    on the rack of none of them; replicas marked for replacement, and
    replicas without a rack, put no rack out of reach. *)
Theorem planRelocationsForBroker_rack_rule `{Env} `{PseudoShuffle} (fl : Flags)
    (params : planRelocationsForBrokerParams) (src : Broker) (n : Z)
    (params' : planRelocationsForBrokerParams) :
  BrokerMap_wf (brokers params) ->
  brokers params !! sourceID params = Some src ->
  planRelocationsForBroker fl params = Ok (n, params') ->
  n <> 0 ->
  exists p dest d,
    p ∈ LargestPartitions (mappings params) (sourceID params)
          (topPartitionsLimit params) (partitionMeta params)
    /\ isPlanned (plan params') p
       = Some (default [] (isPlanned (plan params) p) ++ [(sourceID params, dest)])
    /\ brokers params !! dest = Some d
    /\ if localityScoped fl then Locality d = Locality src
       else forall id rb,
              id ∈ Replicas p -> id <> sourceID params ->
              brokers params !! id = Some rb -> Replace rb = false ->
              dest <> id /\ (Locality rb <> "" -> Locality d <> Locality rb).
Proof.
  intros Hwf Hsrc Hrun Hn.
  destruct (planRelocationsForBroker_placement _ _ _ _ _ Hsrc Hrun)
    as (_ & _ & _ & _ & _ & _
        & [(-> & _) | (_ & p & d0 & Hp & _ & Hplan & Hreg & _ & Hrule)]);
    [contradiction |].
  destruct Hreg as (k & d & Hk & Hid).
  pose proof (Hwf _ _ Hk) as Hkey.
  unfold broker_identity in Hid. injection Hid as Hi Hl _ _.
  exists p, k, d. split; [exact Hp |].
  split; [rewrite Hplan, <- Hi, Hkey; apply isPlanned_relocationPlan_add |].
  split; [exact Hk |].
  destruct (localityScoped fl).
  - rewrite Hl. apply Hrule.
  - intros id rb Hin Hne Hrb Hrep.
    destruct (Hrule id rb Hin Hne Hrb Hrep) as [Hd0 Hloc].
    rewrite Hl. split; [| exact Hloc].
    rewrite <- Hkey, Hi, <- (Hwf _ _ Hrb). exact Hd0.
Qed.

(** T/0 has replicas on brokers 1003 and 1001; moved off 1003, it goes to
    a broker that is not 1001 and that the map holds on another rack
    than a. *)
Lemma planRelocationsForBroker_rack_rule_witness :
  exists dest d,
    isPlanned (plan (Instances.planned Instances.replicated_params))
      Instances.replicated_partition
    = Some [(1003, dest)]
    /\ Instances.example_brokers !! dest = Some d
    /\ dest <> 1001 /\ Locality d <> "a".
Proof.
  destruct (planRelocationsForBroker_rack_rule (H := Instances.example_env)
              (H0 := Instances.identity_shuffle) Instances.example_flags
              Instances.replicated_params
              (mkBroker 1003 "c" 0 20%float false false) 1
              (Instances.planned Instances.replicated_params))
    as (p & dest & d & Hp & Hplan & Hd & Hrule).
  - unfold BrokerMap_wf. compute_done.
  - reflexivity.
  - vm_compute. reflexivity.
  - lia.
  - change (p ∈ [Instances.replicated_partition]) in Hp.
    apply list_elem_of_singleton in Hp. subst p.
    exists dest, d. split; [exact Hplan |]. split; [exact Hd |].
    destruct (Hrule 1001 (mkBroker 1001 "a" 0 100%float false false)) as [Hid Hloc].
    + right. left.
    + discriminate.
    + reflexivity.
    + reflexivity.
    + split; [exact Hid | apply Hloc; discriminate].
Defined.

(** [planRelocationsForBroker] changes no broker's ID, locality or
    replacement marks and registers or drops no broker; it leaves the
    source, the partition sizes, the pass, the partition limit and the
    offload targets as they were, and unmaps from the source exactly the
    partition it planned to move, if any. *)
Theorem planRelocationsForBroker_keeps_registry `{Env} `{PseudoShuffle} (fl : Flags)
    (params : planRelocationsForBrokerParams) (n : Z)
    (params' : planRelocationsForBrokerParams) :
  planRelocationsForBroker fl params = Ok (n, params') ->
  (forall k, broker_identity <$> brokers params' !! k
             = broker_identity <$> brokers params !! k)
  /\ sourceID params' = sourceID params /\ partitionMeta params' = partitionMeta params
  /\ pass params' = pass params /\ topPartitionsLimit params' = topPartitionsLimit params
  /\ offloadTargetsMap params' = offloadTargetsMap params
  /\ (if Z.eqb n 0 then mappings params' = mappings params
      else exists p,
             p ∈ LargestPartitions (mappings params) (sourceID params)
                   (topPartitionsLimit params) (partitionMeta params)
             /\ mappings params' = Mappings_Remove (mappings params) (sourceID params) p).
Proof.
  intros Hrun.
  destruct (brokers params !! sourceID params) as [src |] eqn:Hsrc;
    [| unfold planRelocationsForBroker in Hrun; rewrite Hsrc in Hrun; discriminate].
  destruct (planRelocationsForBroker_placement _ _ _ _ _ Hsrc Hrun)
    as (Hsame & Hs & Hmeta & Hpass & Hlim & Hoff & Hcases).
  split; [exact Hsame |]. repeat (split; [assumption |]).
  destruct Hcases as [(-> & _ & Hmap) | (-> & p & d & Hp & Hmap & _)]; simpl.
  - exact Hmap.
  - exists p. split; assumption.
Qed.

(** After the move of T/0 the three brokers of the example are registered
    as before, and broker 1003 no longer maps the partition. *)
Lemma planRelocationsForBroker_keeps_registry_witness :
  (forall k, broker_identity <$> brokers (Instances.planned Instances.example_params) !! k
             = broker_identity <$> Instances.example_brokers !! k)
  /\ offloadTargetsMap (Instances.planned Instances.example_params) = {[1003]}
  /\ exists p, mappings (Instances.planned Instances.example_params)
               = Mappings_Remove (mappings Instances.example_params) 1003 p.
Proof.
  destruct (planRelocationsForBroker_keeps_registry (H := Instances.example_env)
              (H0 := Instances.identity_shuffle) Instances.example_flags
              Instances.example_params 1 (Instances.planned Instances.example_params))
    as (Hsame & _ & _ & _ & _ & Hoff & p & _ & Hmap).
  - vm_compute. reflexivity.
  - split; [exact Hsame |]. split; [exact Hoff |]. exists p. exact Hmap.
Defined.

(** *** The plan never chains *)

Lemma plan_separates_add (offload : gset Z)
    (plan : gmap string (gmap Z (list (Z * Z)))) (p : Partition) (src dst : Z) :
  plan_separates offload plan -> src ∈ offload -> dst ∉ offload ->
  plan_separates offload (relocationPlan_add plan p (src, dst)).
Proof.
  intros Hsep Hsrc Hdst topic inner n pairs Ht Hn.
  unfold relocationPlan_add in Ht.
  destruct (decide (topic = Topic p)) as [-> | Hne].
  - rewrite lookup_insert_eq in Ht. injection Ht as <-.
    destruct (decide (n = PartitionN p)) as [-> | Hnp].
    + rewrite lookup_insert_eq in Hn. injection Hn as <-.
      apply Forall_app. split; [| repeat constructor; assumption].
      destruct (plan !! Topic p) as [inner0 |] eqn:Hplan.
      * rewrite Hplan. simpl.
        destruct (inner0 !! PartitionN p) as [old |] eqn:Hold; simpl; [| constructor].
        exact (Hsep _ _ _ _ Hplan Hold).
      * rewrite lookup_insert_eq. simpl. rewrite lookup_empty. constructor.
    + rewrite lookup_insert_ne in Hn by congruence.
      destruct (plan !! Topic p) as [inner0 |] eqn:Hplan.
      * rewrite Hplan in Hn. simpl in Hn. exact (Hsep _ _ _ _ Hplan Hn).
      * rewrite lookup_insert_eq in Hn. simpl in Hn. rewrite lookup_empty in Hn.
        discriminate.
  - rewrite lookup_insert_ne in Ht by congruence.
    destruct (plan !! Topic p) as [inner0 |] eqn:Hplan.
    + exact (Hsep _ _ _ _ Ht Hn).
    + rewrite lookup_insert_ne in Ht by congruence. exact (Hsep _ _ _ _ Ht Hn).
Qed.

Lemma separated_no_chain (offload : gset Z) (pairs : list (Z * Z)) :
  Forall (fun relo => relo.1 ∈ offload /\ (relo.2 ∉ offload)) pairs ->
  no_chain pairs.
Proof.
  induction 1 as [| relo rest [_ Hdst] Hrest IH]; cbn [no_chain]; [exact I |].
  split; [| exact IH].
  eapply Forall_impl; [exact Hrest |].
  intros later [Hsrc _] Heq. apply Hdst. rewrite <- Heq. exact Hsrc.
Qed.

(** The rebalance calls [planRelocationsForBroker] for offload targets
    only. Over such calls the plan keeps every source among the offload
    targets and every destination outside them, so that in the pairs
    planned for a partition no destination is the source of a later pair:
    the pairs are as [applyRelocationPlan] needs them to rewrite a replica
    set as if they were applied one after the other. *)
Theorem planRelocationsForBroker_never_chains `{Env} `{PseudoShuffle} (fl : Flags)
    (params : planRelocationsForBrokerParams) (n : Z)
    (params' : planRelocationsForBrokerParams) :
  sourceID params ∈ offloadTargetsMap params ->
  plan_separates (offloadTargetsMap params) (plan params) ->
  planRelocationsForBroker fl params = Ok (n, params') ->
  sourceID params' ∈ offloadTargetsMap params'
  /\ plan_separates (offloadTargetsMap params') (plan params')
  /\ forall partn pairs,
       isPlanned (plan params') partn = Some pairs ->
       no_chain pairs
       /\ (sources_present pairs (Replicas partn) ->
           Replicas (apply_to_partition (plan params') partn)
           = apply_chain pairs (Replicas partn)).
Proof.
  intros Hin Hsep Hrun.
  destruct (brokers params !! sourceID params) as [src |] eqn:Hsrc;
    [| unfold planRelocationsForBroker in Hrun; rewrite Hsrc in Hrun; discriminate].
  destruct (planRelocationsForBroker_placement _ _ _ _ _ Hsrc Hrun)
    as (_ & Hs & _ & _ & _ & Hoff & Hcases).
  rewrite Hs, Hoff.
  assert (Hsep' : plan_separates (offloadTargetsMap params) (plan params')).
  { destruct Hcases as [(_ & -> & _) | (_ & p & d & _ & _ & -> & _ & Hd & _)];
      [exact Hsep |].
    apply plan_separates_add; assumption. }
  split; [exact Hin |]. split; [exact Hsep' |].
  intros partn pairs Hplanned.
  assert (Hno : no_chain pairs).
  { unfold isPlanned in Hplanned.
    destruct (plan params' !! Topic partn) as [inner |] eqn:Htopic; [| discriminate].
    exact (separated_no_chain _ _ (Hsep' _ _ _ _ Htopic Hplanned)). }
  split; [exact Hno |].
  intros Hpresent. unfold apply_to_partition. rewrite Hplanned. cbn [Replicas].
  apply replace_replica_chain; assumption.
Qed.

(** From the empty plan, the call for the offload target 1003 leaves a plan
    without chains. *)
Lemma planRelocationsForBroker_never_chains_witness :
  exists pairs,
    isPlanned (plan (Instances.planned Instances.example_params))
      Instances.example_partition = Some pairs
    /\ no_chain pairs.
Proof.
  destruct (planRelocationsForBroker_never_chains (H := Instances.example_env)
              (H0 := Instances.identity_shuffle) Instances.example_flags
              Instances.example_params 1 (Instances.planned Instances.example_params))
    as (_ & _ & Hno).
  - change (1003 ∈ ({[1003]} : gset Z)). apply elem_of_singleton. reflexivity.
  - intros topic inner k pairs Ht.
    change (plan Instances.example_params)
      with (∅ : gmap string (gmap Z (list (Z * Z)))) in Ht.
    rewrite lookup_empty in Ht. discriminate.
  - vm_compute. reflexivity.
  - assert (Hp : isPlanned (plan (Instances.planned Instances.example_params))
                   Instances.example_partition = Some [(1003, 1001)])
      by (vm_compute; reflexivity).
    exists [(1003, 1001)]. split; [exact Hp |].
    exact (proj1 (Hno Instances.example_partition _ Hp)).
Defined.

End RebalanceProofs.

(** ** Command autothrottle, continued *)
Module AutothrottleExtra.
Import Autothrottle.

(** *** highestLeaderNetTX *)

Lemma highest_step_mark (seen : list Broker) (acc : float * option Broker) (b : Broker) :
  high_water_mark seen acc -> high_water_mark (seen ++ [b]) (highest_step acc b).
Proof.
  intros [Hseen Hacc]. unfold highest_step.
  destruct (PrimFloat.ltb acc.1 (NetTX b)) eqn:Hlt; split; cbn [fst snd].
  - apply Forall_app. split.
    + eapply Forall_impl; [exact Hseen |]. intros l Hl. cbn beta in Hl.
      destruct (PrimFloat.ltb (NetTX b) (NetTX l)) eqn:Hbl; [| reflexivity].
      rewrite (GoFloatOrder.ltb_trans _ _ _ Hlt Hbl) in Hl. discriminate.
    + repeat constructor. apply GoFloatOrder.ltb_irrefl.
  - split; [reflexivity |]. split; [apply elem_of_app; right; left |].
    destruct acc.2 as [b0 |].
    + destruct Hacc as (Hmark & _ & Hpos). rewrite Hmark in Hlt.
      exact (GoFloatOrder.ltb_trans _ _ _ Hpos Hlt).
    + rewrite Hacc in Hlt. exact Hlt.
  - apply Forall_app. split; [exact Hseen |]. repeat constructor. exact Hlt.
  - destruct acc.2 as [b0 |]; [| exact Hacc].
    destruct Hacc as (Hmark & Hin & Hpos). split; [exact Hmark |].
    split; [apply elem_of_app; left; exact Hin | exact Hpos].
Qed.

Lemma highest_fold_mark (ls seen : list Broker) (acc : float * option Broker) :
  high_water_mark seen acc ->
  high_water_mark (seen ++ ls) (fold_left highest_step ls acc).
Proof.
  revert seen acc. induction ls as [| b ls IH]; intros seen acc Hacc; cbn [fold_left].
  - rewrite app_nil_r. exact Hacc.
  - rewrite (cons_middle b seen ls), app_assoc. apply IH, highest_step_mark, Hacc.
Qed.

(** [highestLeaderNetTX] returns a leader of the list whose throughput is
    above 0.00 and which no leader of the list exceeds; it returns nil
    only when no leader's throughput is above 0.00. Comparisons are those
    of binary64: a throughput that is not a number is never above
    another. *)
Theorem highestLeaderNetTX_highest (t : ThrottledReplicas) :
  match highestLeaderNetTX t with
  | Some b =>
      b ∈ Leaders t
      /\ PrimFloat.ltb 0 (NetTX b) = true
      /\ Forall (fun l => PrimFloat.ltb (NetTX b) (NetTX l) = false) (Leaders t)
  | None => Forall (fun l => PrimFloat.ltb 0 (NetTX l) = false) (Leaders t)
  end.
Proof.
  unfold highestLeaderNetTX.
  destruct (highest_fold_mark (Leaders t) [] (0%float, None)) as [Hall Hacc].
  { split; [constructor | reflexivity]. }
  rewrite app_nil_l in Hall, Hacc.
  destruct (fold_left highest_step (Leaders t) (0%float, None)) as [hwm [b |]];
    cbn [fst snd] in *.
  - destruct Hacc as (-> & Hin & Hpos). repeat split; assumption.
  - subst hwm. exact Hall.
Qed.

(** *** brokersFromThrottleList *)

Lemma throttle_loop_ids (rs : list string) (acc ids : list Z) :
  throttle_loop rs acc = Ok (ids, None) <->
  exists new,
    ids = acc ++ new
    /\ Forall2 (fun r id => exists field,
                  Split ":" r !! 1%nat = Some field /\ Atoi field = Some id) rs new.
Proof.
  revert acc. induction rs as [| r rs IH]; intros acc; cbn [throttle_loop].
  - split.
    + intros [= <-]. exists []. split; [rewrite app_nil_r; reflexivity | constructor].
    + intros (new & -> & Hnew). apply Forall2_nil_inv_l in Hnew as ->.
      rewrite app_nil_r. reflexivity.
  - destruct (Split ":" r !! 1%nat) as [field |] eqn:Hfield;
      cbn [deref mbind result_bind rbind].
    + destruct (Atoi field) as [id |] eqn:Hid.
      * rewrite IH. split.
        -- intros (new & -> & Hnew). exists (id :: new).
           split; [rewrite <- app_assoc; reflexivity |].
           constructor; [exists field; split; [exact Hfield | exact Hid] | exact Hnew].
        -- intros (new & -> & Hnew).
           apply Forall2_cons_inv_l in Hnew as (id' & new' & (f & Hf & Hid') & Hnew & ->).
           assert (id' = id) as -> by congruence.
           exists new'. split; [rewrite <- app_assoc; reflexivity | exact Hnew].
      * split; [discriminate |].
        intros (new & _ & Hnew).
        apply Forall2_cons_inv_l in Hnew as (id' & new' & (f & Hf & Hid') & _ & _).
        congruence.
    + split; [discriminate |].
      intros (new & _ & Hnew).
      apply Forall2_cons_inv_l in Hnew as (id' & new' & (f & Hf & _) & _ & _).
      congruence.
Qed.

(** [brokersFromThrottleList] returns a list without an error exactly when
    every comma-separated entry has a second colon-separated field that
    [strconv.Atoi] accepts; the list then holds, entry by entry and in
    order, the integers of these fields, duplicates included. *)
Theorem brokersFromThrottleList_ids (l : string) (ids : list Z) :
  brokersFromThrottleList l = Ok (ids, None) <->
  Forall2 (fun r id => exists field,
             Split ":" r !! 1%nat = Some field /\ Atoi field = Some id)
          (Split "," l) ids.
Proof.
  unfold brokersFromThrottleList. rewrite throttle_loop_ids. split.
  - intros (new & -> & Hnew). exact Hnew.
  - intros Hids. exists ids. split; [reflexivity | exact Hids].
Qed.

(** *** brokersFromConfig *)

Lemma lookup_loop_found (b : gmap Z Broker) (ids : list Z) (found out : list Broker) :
  lookup_loop b ids found = (out, None) ->
  exists new, out = found ++ new
              /\ Forall2 (fun id br => b !! id = Some br) ids new.
Proof.
  revert found. induction ids as [| id ids IH]; intros found; cbn [lookup_loop].
  - intros [= <-]. exists []. split; [rewrite app_nil_r; reflexivity | constructor].
  - destruct (b !! id) as [br |] eqn:Hbr; [| discriminate].
    intros Hloop. destruct (IH _ Hloop) as (new & -> & Hnew).
    exists (br :: new). split; [rewrite <- app_assoc; reflexivity |].
    constructor; assumption.
Qed.

Lemma ids_of_config_elem (c : TopicConfig) (t : string) (s : gset Z)
    (errs : list error) (id : Z) :
  ids_of_config c t = Ok (s, errs) ->
  id ∈ s <->
  exists l r, Config c !! (t ++ ".replication.throttled.replicas")%string = Some l
              /\ brokersFromThrottleList l = Ok r /\ id ∈ r.1.
Proof.
  unfold ids_of_config.
  destruct (Config c !! _) as [l |] eqn:Hc.
  - destruct (brokersFromThrottleList l) as [r |] eqn:Hr; cbn [mbind result_bind rbind];
      [| discriminate].
    intros [= <- _]. rewrite elem_of_list_to_set. split.
    + intros Hin. exists l, r. auto.
    + intros (l' & r' & [= <-] & Hr' & Hin). congruence.
  - intros [= <- _]. split; [set_solver |]. intros (l & r & Hl & _). discriminate.
Qed.

(** When [brokersFromConfig] returns without errors, the leaders it lists
    are the metrics of the broker IDs of the leader throttle list, each ID
    taken once however often the list names it, and so for the followers;
    every ID named has metrics. The order is that of [range] over a map,
    which visits each key once. *)
Theorem brokersFromConfig_each_broker_once `{Env} (b : gmap Z Broker)
    (c : TopicConfig) (ls fs : list Broker) :
  (forall s, range_ids s ≡ₚ elements s) ->
  brokersFromConfig b c = Ok ((ls, fs), []) ->
  exists lids fids,
    NoDup lids /\ NoDup fids
    /\ Forall2 (fun id br => b !! id = Some br) lids ls
    /\ Forall2 (fun id br => b !! id = Some br) fids fs
    /\ (forall id, id ∈ lids <->
          exists l r, Config c !! "leader.replication.throttled.replicas" = Some l
                      /\ brokersFromThrottleList l = Ok r /\ id ∈ r.1)
    /\ (forall id, id ∈ fids <->
          exists l r, Config c !! "follower.replication.throttled.replicas" = Some l
                      /\ brokersFromThrottleList l = Ok r /\ id ∈ r.1).
Proof.
  intros Hrange. unfold brokersFromConfig.
  destruct (ids_of_config c "leader") as [[lset lerr] |] eqn:Hl;
    cbn [mbind result_bind rbind]; [| discriminate].
  destruct (ids_of_config c "follower") as [[fset ferr] |] eqn:Hf;
    cbn [mbind result_bind rbind fst snd]; [| discriminate].
  destruct (lerr ++ ferr) as [| e errs]; [| discriminate].
  assert (Hfinish : forall ls' fs',
             lookup_loop b (range_ids lset) [] = (ls', None) ->
             lookup_loop b (range_ids fset) [] = (fs', None) ->
             Ok (ls', fs', []) = Ok (ls, fs, @nil error) ->
             exists lids fids,
               NoDup lids /\ NoDup fids
               /\ Forall2 (fun id br => b !! id = Some br) lids ls
               /\ Forall2 (fun id br => b !! id = Some br) fids fs
               /\ (forall id, id ∈ lids <->
                     exists l r, Config c !! "leader.replication.throttled.replicas" = Some l
                                 /\ brokersFromThrottleList l = Ok r /\ id ∈ r.1)
               /\ (forall id, id ∈ fids <->
                     exists l r, Config c !! "follower.replication.throttled.replicas" = Some l
                                 /\ brokersFromThrottleList l = Ok r /\ id ∈ r.1)).
  { intros ls' fs' Hll Hlf [= <- <-].
    apply lookup_loop_found in Hll as (lnew & -> & Hlnew).
    apply lookup_loop_found in Hlf as (fnew & -> & Hfnew).
    exists (range_ids lset), (range_ids fset).
    split; [rewrite Hrange; apply NoDup_elements |].
    split; [rewrite Hrange; apply NoDup_elements |].
    split; [exact Hlnew |]. split; [exact Hfnew |].
    split; intros id; rewrite Hrange, elem_of_elements.
    - exact (ids_of_config_elem c "leader" lset _ id Hl).
    - exact (ids_of_config_elem c "follower" fset _ id Hf). }
  destruct range_bids_leader_first.
  - destruct (lookup_loop b (range_ids lset) []) as [ls' [e |]] eqn:Hll; [discriminate |].
    destruct (lookup_loop b (range_ids fset) []) as [fs' [e |]] eqn:Hlf; [discriminate |].
    apply Hfinish; reflexivity.
  - destruct (lookup_loop b (range_ids fset) []) as [fs' [e |]] eqn:Hlf; [discriminate |].
    destruct (lookup_loop b (range_ids lset) []) as [ls' [e |]] eqn:Hll; [discriminate |].
    apply Hfinish; reflexivity.
Qed.

(** Broker 1001 leads two partitions of the throttle list and is listed
    once. *)
Lemma brokersFromConfig_each_broker_once_witness :
  exists lids fids,
    NoDup lids /\ NoDup fids
    /\ Forall2 (fun id br => Instances.idle_metrics !! id = Some br) lids
         [mkBroker 1005 "d2.xlarge" 10%float; mkBroker 1001 "d2.xlarge" 0%float]
    /\ Forall2 (fun id br => Instances.idle_metrics !! id = Some br) fids
         [mkBroker 1005 "d2.xlarge" 10%float].
Proof.
  destruct (brokersFromConfig_each_broker_once
              (H := Instances.example_throttle_env ∅ Instances.idle_metrics)
              Instances.idle_metrics
              (mkTopicConfig 1
                 (<["leader.replication.throttled.replicas" := "0:1001,1:1001,2:1005"]>
                    (<["follower.replication.throttled.replicas" := "0:1005"]> ∅)))
              [mkBroker 1005 "d2.xlarge" 10%float; mkBroker 1001 "d2.xlarge" 0%float]
              [mkBroker 1005 "d2.xlarge" 10%float])
    as (lids & fids & Hl & Hf & Hls & Hfs & _).
  - intros s. reflexivity.
  - vm_compute. reflexivity.
  - exists lids, fids. repeat split; assumption.
Defined.

End AutothrottleExtra.
